(** * zensquid-backend: the summary webhook, its two zod schemas and its pipeline

    A shallow embedding of [src/service/summary-service.ts] and of the two
    schema modules, with the properties of the specification stated over it.

    - JavaScript values that cross the code are JSON values ([json]); a
      missing property or argument is [undefined], the [None] of [jsval].
    - A JavaScript object is an association list: the order of its keys is
      what [JSON.stringify] prints, so it is kept.
    - zod schemas are terms of [schema]; [safeParse] interprets them.
    - The handler runs in a small monad that records every call it makes out
      of itself and carries thrown exceptions (a rejected promise of the
      async handler). *)

From Stdlib Require Import List String Ascii Bool ZArith QArith.
From Stdlib Require Import DecimalString.
From Stdlib Require Import Lia.
Import ListNotations.
Local Close Scope Q_scope.
Local Close Scope Z_scope.
Local Open Scope nat_scope.
Local Open Scope list_scope.
Local Open Scope string_scope.
Set Warnings "-register-all".

(** ** JavaScript values *)

(** A JavaScript number as [JSON.parse] can produce it: a finite value, or an
    infinity when the literal overflows.  No arithmetic is done on the numbers
    of a response; they are checked by [typeof] and printed back. *)
Inductive number : Type :=
| Finite (q : Q)
| PosInfinity
| NegInfinity.

Inductive json : Type :=
| JNull
| JBool (b : bool)
| JNum (n : number)
| JStr (s : string)
| JArr (items : list json)
| JObj (props : list (string * json)).

(** [None] is [undefined]. *)
Definition jsval : Type := option json.

Inductive exn : Type :=
| SyntaxError               (* JSON.parse, response.json() *)
| TypeError                 (* property of null/undefined, call of a non-function *)
| Error (message : string)  (* new Error(message) *)
| Rejected (reason : string). (* a collaborator's promise rejected *)

Fixpoint lookup (k : string) (props : list (string * json)) : jsval :=
  match props with
  | [] => None
  | (k', v) :: rest => if String.eqb k k' then Some v else lookup k rest
  end.

(** [o.k] for the property names this code reads ([id], [email], [transcript],
    [title], [description], [takeaways], [actionItems], [url]): none of them is
    on a prototype, so only own properties of an object answer; on [null] or
    [undefined] the access throws. *)
Definition get_prop (o : jsval) (k : string) : exn + jsval :=
  match o with
  | None => inl TypeError
  | Some JNull => inl TypeError
  | Some (JObj props) => inr (lookup k props)
  | Some _ => inr None
  end.

(** The value of [o.k] where the read does not throw. *)
Definition field (o : jsval) (k : string) : jsval :=
  match get_prop o k with
  | inr v => v
  | inl _ => None
  end.

Definition keys (props : list (string * json)) : list string := map fst props.

(** ** String helpers *)

Definition newline : string := String (ascii_of_nat 10) EmptyString.
Definition dquote : string := String (ascii_of_nat 34) EmptyString.

Fixpoint join (sep : string) (l : list string) : string :=
  match l with
  | [] => ""
  | [x] => x
  | x :: rest => x ++ sep ++ join sep rest
  end.

(** The text of a template literal, written line by line. *)
Definition lines (l : list string) : string := join newline l.

(** [unq s] is [s] with every [^] replaced by a double quote: the templates of
    the source are written below with [^] where the source has the double-quote
    character. The source has no [^]. *)
Fixpoint unq (s : string) : string :=
  match s with
  | EmptyString => EmptyString
  | String c rest =>
      String (if Ascii.eqb c "^"%char then ascii_of_nat 34 else c) (unq rest)
  end.

(** ** ToString and JSON.stringify *)

Section Serialisation.

(** Number::toString, the shortest decimal that reads back. It is only ever
    applied, never inspected. *)
Variable Number_toString : Q -> string.

Definition number_ToString (n : number) : string :=
  match n with
  | Finite q => Number_toString q
  | PosInfinity => "Infinity"
  | NegInfinity => "-Infinity"
  end.

(** ToString on a JSON value; an array joins its elements with a comma,
    [null] elements printing as nothing. *)
Fixpoint ToString (v : json) : string :=
  match v with
  | JNull => "null"
  | JBool true => "true"
  | JBool false => "false"
  | JNum n => number_ToString n
  | JStr s => s
  | JArr items =>
      join "," (map (fun x => match x with JNull => "" | _ => ToString x end) items)
  | JObj _ => "[object Object]"
  end.

(** A template-literal hole: [${v}]. *)
Definition interpolate (v : jsval) : string :=
  match v with
  | None => "undefined"
  | Some j => ToString j
  end.

Definition hex_digit (n : nat) : ascii :=
  match n with
  | 0 => "0" | 1 => "1" | 2 => "2" | 3 => "3" | 4 => "4" | 5 => "5" | 6 => "6"
  | 7 => "7" | 8 => "8" | 9 => "9" | 10 => "a" | 11 => "b" | 12 => "c"
  | 13 => "d" | 14 => "e" | _ => "f"
  end%char.

(** QuoteJSONString on one code unit. Rocq strings are byte strings, read
    here as UTF-8: every byte from 0x20 up passes unchanged. *)
Definition quote_char (c : ascii) : string :=
  let n := nat_of_ascii c in
  if Nat.eqb n 8 then "\b"
  else if Nat.eqb n 9 then "\t"
  else if Nat.eqb n 10 then "\n"
  else if Nat.eqb n 12 then "\f"
  else if Nat.eqb n 13 then "\r"
  else if Nat.eqb n 34 then "\" ++ dquote
  else if Nat.eqb n 92 then "\\"
  else if Nat.ltb n 32 then
    "\u00" ++ String (hex_digit (n / 16)) (String (hex_digit (n mod 16)) "")
  else String c "".

Fixpoint quote_body (s : string) : string :=
  match s with
  | EmptyString => ""
  | String c rest => quote_char c ++ quote_body rest
  end.

Definition QuoteJSONString (s : string) : string :=
  dquote ++ quote_body s ++ dquote.

(** SerializeJSONProperty with no replacer. [gap] is the indentation unit
    ([""] for [JSON.stringify(v)], two spaces for [JSON.stringify(v, null, 2)])
    and [indent] the current indentation. *)
Fixpoint serialize (gap indent : string) (v : json) : string :=
  let stepback := indent in
  let indent := indent ++ gap in
  let wrap (opening closing : string) (parts : list string) : string :=
    match parts with
    | [] => opening ++ closing
    | _ =>
        if String.eqb gap "" then opening ++ join "," parts ++ closing
        else opening ++ newline ++ indent
               ++ join ("," ++ newline ++ indent) parts
               ++ newline ++ stepback ++ closing
    end in
  match v with
  | JNull => "null"
  | JBool true => "true"
  | JBool false => "false"
  | JNum (Finite q) => Number_toString q
  | JNum _ => "null"
  | JStr s => QuoteJSONString s
  | JArr items =>
      wrap "[" "]"
        ((fix each (l : list json) : list string :=
            match l with
            | [] => []
            | x :: rest => serialize gap indent x :: each rest
            end) items)
  | JObj props =>
      wrap "{" "}"
        ((fix each (l : list (string * json)) : list string :=
            match l with
            | [] => []
            | (k, x) :: rest =>
                (QuoteJSONString k
                   ++ (if String.eqb gap "" then ":" else ": ")
                   ++ serialize gap indent x) :: each rest
            end) props)
  end.

(** [JSON.stringify(v)] *)
Definition JSON_stringify (v : json) : string := serialize "" "" v.

(** [JSON.stringify(v, null, 2)] *)
Definition JSON_stringify_2 (v : json) : string := serialize "  " "" v.

End Serialisation.

(** ** zod *)

Inductive path_elem : Type :=
| PKey (k : string)
| PIndex (i : nat).

Inductive issue_code : Type :=
| invalid_type          (* wrong [typeof], or a required value is missing *)
| too_small             (* [.min(n)] *)
| invalid_string        (* [.email()] *)
| invalid_enum_value.   (* [z.enum] on a string outside the list *)

Record ZodIssue : Type := mkIssue {
  code : issue_code;
  path : list path_elem
}.

(** [ZodError]: the issues collected over the whole input. *)
Definition ZodError : Type := list ZodIssue.

Inductive string_check : Type :=
| min (n : nat)
| email.

Inductive schema : Type :=
| z_string (checks : list string_check)
| z_number
| z_boolean
| z_enum (values : list string)
| z_array (element : schema)
| z_object (shape : list (string * schema))
| z_optional (inner : schema).

Inductive SafeParseReturn : Type :=
| Success (data : jsval)
| Failure (error : ZodError).

Section Zod.

(** The test behind [z.string().email()], a regular expression of the zod
    release in use. *)
Variable zod_email : string -> bool.

(** The length of a string is counted in bytes here and in UTF-16 units by
    zod; the schemas only ask for [min(1)], on which the two agree. *)
Definition run_check (p : list path_elem) (s : string) (c : string_check)
  : ZodError :=
  match c with
  | min n => if Nat.leb n (String.length s) then [] else [mkIssue too_small p]
  | email => if zod_email s then [] else [mkIssue invalid_string p]
  end.

Definition mem (s : string) (l : list string) : bool :=
  existsb (String.eqb s) l.

(** [_parse]: the issues found, and the parsed output. The output is
    meaningful when no issue was found, which is when zod reports it. A
    [z.object] keeps the keys of its shape, in the order of the shape, and
    drops every other key of the input (the default, [strip]). *)
Fixpoint parse (s : schema) (p : list path_elem) (v : jsval)
  : ZodError * jsval :=
  match s with
  | z_optional inner =>
      match v with
      | None => ([], None)
      | Some _ => parse inner p v
      end
  | z_string checks =>
      match v with
      | Some (JStr str) => (flat_map (run_check p str) checks, v)
      | _ => ([mkIssue invalid_type p], None)
      end
  | z_number =>
      match v with
      | Some (JNum _) => ([], v)
      | _ => ([mkIssue invalid_type p], None)
      end
  | z_boolean =>
      match v with
      | Some (JBool _) => ([], v)
      | _ => ([mkIssue invalid_type p], None)
      end
  | z_enum values =>
      match v with
      | Some (JStr str) =>
          if mem str values then ([], v) else ([mkIssue invalid_enum_value p], None)
      | _ => ([mkIssue invalid_type p], None)
      end
  | z_array element =>
      match v with
      | Some (JArr items) =>
          let '(issues, out) :=
            (fix each (i : nat) (l : list json) : ZodError * list json :=
               match l with
               | [] => ([], [])
               | x :: rest =>
                   let '(e, o) := parse element (p ++ [PIndex i])%list (Some x) in
                   let '(es, os) := each (S i) rest in
                   ((e ++ es)%list, match o with Some y => y :: os | None => os end)
               end) 0 items in
          (issues, Some (JArr out))
      | _ => ([mkIssue invalid_type p], None)
      end
  | z_object shape =>
      match v with
      | Some (JObj props) =>
          let '(issues, out) :=
            (fix each (sh : list (string * schema))
               : ZodError * list (string * json) :=
               match sh with
               | [] => ([], [])
               | (k, sk) :: rest =>
                   let '(e, o) := parse sk (p ++ [PKey k])%list (lookup k props) in
                   let '(es, os) := each rest in
                   ((e ++ es)%list, match o with Some y => (k, y) :: os | None => os end)
               end) shape in
          (issues, Some (JObj out))
      | _ => ([mkIssue invalid_type p], None)
      end
  end.

(** [schema.safeParse(input)]: success exactly when no issue was raised. *)
Definition safeParse (s : schema) (input : jsval) : SafeParseReturn :=
  match parse s [] input with
  | ([], data) => Success data
  | (issues, _) => Failure issues
  end.

End Zod.

(** ** The schema modules

    Two modules of the repository export [requestSchema] and
    [insertMeetingMetadataSchema]. They differ in the metadata shape only:
    [Schema] requires every top-level field, [PartialSchema] wraps each of them
    in [.optional()]. The service reads [data.takeaways.forEach] and
    [data.actionItems.forEach] on the parse result with no test for
    [undefined], which type-checks against the strict shape only: [Schema] is
    the module the service imports as ["schema"]. *)

(** The strict shape: every field required. *)
Module Schema.

Definition TranscriptBlockSchema : schema :=
  z_object [
    ("personName", z_string [min 1]);
    ("timestamp", z_string [min 1]);
    ("text", z_string [min 1])
  ].

Definition TranscriptSchema : schema := z_array TranscriptBlockSchema.

Definition requestSchema : schema :=
  z_object [
    ("id", z_string [min 1]);
    ("email", z_string [email]);
    ("startTime", z_string [min 1]);
    ("endTime", z_string [min 1]);
    ("participants", z_array (z_string [min 1]));
    ("transcript", TranscriptSchema)
  ].

Definition insertMeetingMetadataSchema : schema :=
  z_object [
  ("title", z_string []);
  ("shortDescription", z_string []);
  ("description", z_string []);
  ("takeaways", z_array (z_string []));
  ("actionItems", z_array (z_object [
       ("id", z_string [min 1]);
       ("description", z_string []);
       ("assignee", z_string []);
       ("deadline", z_string [min 1]);
       ("status", z_enum ["pending"; "in_progress"; "completed"])
     ]));
  ("moodGraph", z_object [
       ("aspects", z_array (z_object [
          ("mood", z_string []);
          ("score", z_number)
        ]));
       ("timestamp", z_string [min 1])
     ]);
  ("timeline", z_array (z_object [
       ("startTime", z_string [min 1]);
       ("endTime", z_string [min 1]);
       ("topic", z_string []);
       ("speaker", z_string [])
     ]));
  ("participantEngagement", z_array (z_object [
       ("participantId", z_string []);
       ("speakingTime", z_number);
       ("interventionCount", z_number);
       ("engagementScore", z_number)
     ]));
  ("sentimentOverTime", z_object [
       ("overallSentiment", z_number);
       ("sentimentPoints", z_array (z_object [
          ("timestamp", z_string [min 1]);
          ("sentiment", z_number)
        ]))
     ]);
  ("questionTracker", z_array (z_object [
       ("id", z_string []);
       ("text", z_string []);
       ("askedBy", z_string []);
       ("timestamp", z_string [min 1]);
       ("answered", z_boolean)
     ]));
  ("resourceLinks", z_array (z_object [
       ("id", z_string []);
       ("url", z_string []);
       ("title", z_string []);
       ("type", z_enum ["document"; "website"; "video"; "other"]);
       ("mentionedAt", z_string [min 1])
     ]));
  ("meetingEfficiencyScore", z_number)
  ].

End Schema.

(** The partial shape: every top-level metadata field optional. *)
Module PartialSchema.

Definition TranscriptBlockSchema : schema :=
  z_object [
    ("personName", z_string [min 1]);
    ("timestamp", z_string [min 1]);
    ("text", z_string [min 1])
  ].

Definition TranscriptSchema : schema := z_array TranscriptBlockSchema.

Definition requestSchema : schema :=
  z_object [
    ("id", z_string [min 1]);
    ("email", z_string [email]);
    ("startTime", z_string [min 1]);
    ("endTime", z_string [min 1]);
    ("participants", z_array (z_string [min 1]));
    ("transcript", TranscriptSchema)
  ].

Definition insertMeetingMetadataSchema : schema :=
  z_object [
  ("title", z_optional (z_string []));
  ("shortDescription", z_optional (z_string []));
  ("description", z_optional (z_string []));
  ("takeaways", z_optional (z_array (z_string [])));
  ("actionItems", z_optional (z_array (z_object [
       ("id", z_string [min 1]);
       ("description", z_string []);
       ("assignee", z_string []);
       ("deadline", z_string [min 1]);
       ("status", z_enum ["pending"; "in_progress"; "completed"])
     ])));
  ("moodGraph", z_optional (z_object [
       ("aspects", z_array (z_object [
          ("mood", z_string []);
          ("score", z_number)
        ]));
       ("timestamp", z_string [min 1])
     ]));
  ("timeline", z_optional (z_array (z_object [
       ("startTime", z_string [min 1]);
       ("endTime", z_string [min 1]);
       ("topic", z_string []);
       ("speaker", z_string [])
     ])));
  ("participantEngagement", z_optional (z_array (z_object [
       ("participantId", z_string []);
       ("speakingTime", z_number);
       ("interventionCount", z_number);
       ("engagementScore", z_number)
     ])));
  ("sentimentOverTime", z_optional (z_object [
       ("overallSentiment", z_number);
       ("sentimentPoints", z_array (z_object [
          ("timestamp", z_string [min 1]);
          ("sentiment", z_number)
        ]))
     ]));
  ("questionTracker", z_optional (z_array (z_object [
       ("id", z_string []);
       ("text", z_string []);
       ("askedBy", z_string []);
       ("timestamp", z_string [min 1]);
       ("answered", z_boolean)
     ])));
  ("resourceLinks", z_optional (z_array (z_object [
       ("id", z_string []);
       ("url", z_string []);
       ("title", z_string []);
       ("type", z_enum ["document"; "website"; "video"; "other"]);
       ("mentionedAt", z_string [min 1])
     ])));
  ("meetingEfficiencyScore", z_optional (z_number))
  ].

End PartialSchema.

(** ** The prompt

    [generatePrompt] is one template literal with one hole. The text before the
    hole and the text after it are copied from the source line by line; a line
    break of the template is a line break of the string, and an escaped
    backquote of the template is a backquote. *)

(** The template up to the hole. *)
Definition prompt_head : string :=
  unq (lines [
    "You are tasked with analyzing a provided meeting transcript and generating a summary in the specified format. The transcript is provided as an array of objects, where each object represents a block of text spoken by a participant. Each block has the following properties:";
    "";
    "- `personName`: the name of the participant who spoke the text";
    "- `timestamp`: the timestamp of when the text was spoken ";
    "- `text`: the actual text spoken by the participant";
    "";
    ""
  ]).

(** The template from the hole to its end. *)
Definition prompt_tail : string :=
  unq (lines [
    "";
    "";
    "Your goal is to process this transcript and output a meeting metadata object that includes the following properties:";
    "All Date and Time values should be in ISOString format. ALL THE SCORES SHOULD BE NUMBERS.";
    "";
    "```json";
    "{";
    "  ^title^: ^a short, descriptive title for the meeting^,";
    "  ^shortDescription^: ^a brief summary of the meeting^,";
    "  ^description^: ^a longer, more detailed description of the meeting, must be at least 400 characters^,";
    "  ^takeaways^: ^a list of key takeaways or insights from the meeting^,";
    "  ^actionItems^: [";
    "    {";
    "      ^id^: ^a unique identifier for the action item^,";
    "      ^description^: ^a description of the action item^,";
    "      ^assignee^: ^the person assigned to the action item^,";
    "      ^deadline^: ^the deadline for the action item, ISOString format^,";
    "      ^status^: ^the current status of the action item ('pending', 'in_progress', 'completed')^";
    "    }";
    "  ],";
    "  ^moodGraph^: {";
    "    ^aspects^: [";
    "      {";
    "        ^mood^: ^the aspect or type of mood being tracked e.g. 'happiness', 'stress', 'engagement'^,";
    "        ^score^: ^the score or intensity of that mood e.g. 0-100 number^";
    "      },";
    "      {";
    "        ^mood^: ^the aspect or type of mood being tracked e.g. 'happiness', 'stress', 'engagement', 'confusion'^,, 'engagement'^,";
    "        ^score^: ^the score or intensity of that mood e.g. 0-100 number^";
    "      },";
    "      {";
    "        ^mood^: ^the aspect or type of mood being tracked e.g. 'happiness', 'stress', 'engagement', 'confusion'^,, 'engagement'^,";
    "        ^score^: ^the score or intensity of that mood e.g. 0-100 number^";
    "      }";
    "    ],";
    "    ^timestamp^: ^the timestamp associated with the mood data^";
    "  },";
    "  ^timeline^: [";
    "    {";
    "      ^startTime^: ^the start time of the timeline event^,";
    "      ^endTime^: ^the end time of the timeline event^,";
    "      ^topic^: ^the topic or subject of the timeline event^,";
    "      ^speaker^: ^the speaker or presenter of the timeline event^";
    "    }";
    "  ],";
    "  ^participantEngagement^: [";
    "    {";
    "      ^participantId^: ^the unique identifier of the participant^,";
    "      ^speakingTime^: ^the total time the participant spent speaking - number^,";
    "      ^interventionCount^: ^the number of times the participant intervened or spoke up - number^,";
    "      ^engagementScore^: ^an overall engagement score for the participant - number^";
    "    }";
    "  ],";
    "  ^sentimentOverTime^: {";
    "    ^overallSentiment^: ^the overall sentiment score for the meeting - number^,";
    "    ^sentimentPoints^: [";
    "      {";
    "        ^timestamp^: ^the timestamp associated with the sentiment data^,";
    "        ^sentiment^: ^the sentiment score at that timestamp - number^";
    "      }";
    "    ]";
    "  },";
    "  ^questionTracker^: [";
    "    {";
    "      ^id^: ^a unique identifier for the question^,";
    "      ^text^: ^the text of the question^,";
    "      ^askedBy^: ^the participant who asked the question^,";
    "      ^timestamp^: ^the timestamp when the question was asked^,";
    "      ^answered^: ^a boolean indicating whether the question was answered^";
    "    }";
    "  ],";
    "  ^resourceLinks^: [";
    "    {";
    "      ^id^: ^a unique identifier for the resource link^,";
    "      ^url^: ^the URL of the resource^,";
    "      ^title^: ^the title or description of the resource^,";
    "      ^type^: ^the type of resource ('document', 'website', 'video', 'other')^,";
    "      ^mentionedAt^: ^the timestamp when the resource was mentioned^";
    "    }";
    "  ],";
    "  ^meetingEfficiencyScore^: ^an overall score representing the efficiency of the meeting - number^";
    "}";
    "";
    "The input for this task is the meeting transcript, provided as an array of objects with the following structure:";
    "";
    "```json";
    "{";
    "  ^transcript^: [";
    "    {";
    "      ^personName^: ^string^,";
    "      ^timestamp^: ^string^,";
    "      ^text^: ^string^";
    "    }";
    "  ]";
    "}";
    "```";
    "";
    "Your task is to process this transcript and generate the meeting metadata object as described above. NEVER INCLUDE ANY PERSONAL INFORMATION, NEVER ADD INFORMATION THAT ISNT IN THE TRANSCRIPT, AND NEVER INCLUDE ANYTHING THAT COULD BE CONSIDERED OFFENSIVE OR INAPPROPRIATE. The output should be a JSON object that adheres to the specified format. Good luck!";
    ""
  ]).

(** ** pptxgenjs

    The part of the library the service drives: a presentation is its slides
    in the order they were added, a slide is the text boxes added to it, in
    order. [addSlide] returns a reference to the new slide and [addText]
    writes through such a reference. Coordinates are the literals of the
    source; [1 + index * 0.5] is exact in binary floating point for every index
    an array can have, so it is computed in [Q]. *)
Module PptxGenJS.

Record TextOptions : Type := {
  x : Q;
  y : Q;
  w : option string;
  h : option Q;
  fontSize : nat;
  bold : option bool
}.

Record TextBox : Type := {
  text : jsval;
  options : TextOptions
}.

Definition Slide : Type := list TextBox.
Definition Presentation : Type := list Slide.

(** [new PptxGenJS()] *)
Definition new : Presentation := [].

(** [pptx.addSlide()]: the presentation with one more slide, and the index of
    that slide. *)
Definition addSlide (pptx : Presentation) : Presentation * nat :=
  ((pptx ++ [[]])%list, List.length pptx).

Fixpoint update (i : nat) (f : Slide -> Slide) (pptx : Presentation)
  : Presentation :=
  match pptx, i with
  | [], _ => []
  | s :: rest, 0 => f s :: rest
  | s :: rest, S j => s :: update j f rest
  end.

(** [slide.addText(text, options)] on the slide of index [slide]. *)
Definition addText (slide : nat) (t : jsval) (o : TextOptions)
  (pptx : Presentation) : Presentation :=
  update slide (fun s => (s ++ [{| text := t; options := o |}])%list) pptx.

End PptxGenJS.

(** ** The collaborators *)

(** What [pptx.write()] resolves to: the bytes of the file. *)
Definition Blob : Type := string.

Inductive Body : Type :=
| Text (s : string)
| Binary (b : Blob).

(** The [init] argument of [fetch]. *)
Record RequestInit : Type := {
  method : string;
  headers : list (string * string);
  body : Body
}.

Record Response : Type := {
  ok : bool;
  response_json : exn + json   (* [await response.json()] *)
}.

(** The arguments of [chatbot(integration).ask(profile, prompt, options)]. *)
Record AskCall : Type := {
  integration : string;
  profile : string;
  prompt : string;
  responseFormat : string;
  temperature : Q
}.

(** A call out of the handler: to the chatbot, to [fetch], or to
    [pptx.write()] on the slides built. *)
Inductive Event : Type :=
| Ask (call : AskCall)
| Fetch (url : string) (init : option RequestInit)
| WriteFile (pptx : PptxGenJS.Presentation).

(** Everything outside the handler. A collaborator answers or rejects; its
    answer is a function of the call. The three [fetch] calls of one run differ
    in method or headers, so one run never asks the same question twice and a
    function loses no behaviour. [pptx_write] is [pptx.write()], the file made
    from the slides. *)
Record World : Type := {
  BACKEND_API_URL : option string;
  chatbot_ask : AskCall -> exn + string;
  fetch : string -> option RequestInit -> exn + Response;
  pptx_write : PptxGenJS.Presentation -> Blob
}.

(** The functions of the JavaScript runtime and of zod that the code calls and
    this development leaves open. [JSON_parse s] is [None] when
    [JSON.parse(s)] throws a [SyntaxError]. *)
Record Runtime : Type := {
  Number_toString : Q -> string;
  zod_email : string -> bool;
  JSON_parse : string -> option json
}.

(** ** The handler's monad: a trace of calls, and exceptions *)

Inductive Completion (A : Type) : Type :=
| Normal (a : A)
| Throw (e : exn).
Arguments Normal {A} a.
Arguments Throw {A} e.

Definition IO (A : Type) : Type := list Event -> list Event * Completion A.

Definition ret {A : Type} (a : A) : IO A := fun tr => (tr, Normal a).

Definition throw {A : Type} (e : exn) : IO A := fun tr => (tr, Throw e).

Definition bind {A B : Type} (m : IO A) (k : A -> IO B) : IO B :=
  fun tr =>
    match m tr with
    | (tr', Normal a) => k a tr'
    | (tr', Throw e) => (tr', Throw e)
    end.

Notation "x <- m ;; k" := (bind m (fun x => k))
  (at level 61, m at next level, right associativity).

(** A pure step that may throw. *)
Definition lift {A : Type} (r : exn + A) : IO A :=
  match r with
  | inl e => throw e
  | inr a => ret a
  end.

(** A call out of the handler: it is recorded, then the answer is awaited. *)
Definition call {A : Type} (ev : Event) (answer : exn + A) : IO A :=
  fun tr => lift answer (tr ++ [ev])%list.

(** The handler run from an empty trace. *)
Definition run {A : Type} (m : IO A) : list Event * Completion A := m [].

(** ** The service *)

(** What [handleSummary] resolves to: [{ success, error }]. The error is
    [null], one of the fixed messages, or the [ZodError] of the response. *)
Inductive ErrorValue : Type :=
| ENull
| EMessage (s : string)
| EZod (e : ZodError).

Record Result : Type := {
  success : bool;
  error : ErrorValue
}.

(** [arr.forEach((item, index) => ...)], the callback updating a state. *)
Fixpoint forEach_from {St : Type} (f : json -> nat -> St -> exn + St)
  (items : list json) (index : nat) (st : St) : exn + St :=
  match items with
  | [] => inr st
  | item :: rest =>
      match f item index st with
      | inl e => inl e
      | inr st' => forEach_from f rest (S index) st'
      end
  end.

(** [forEach] is a method of arrays only: on [undefined] or [null] the property
    read throws, on any other value the call of [undefined] throws. *)
Definition forEach {St : Type} (arr : jsval)
  (f : json -> nat -> St -> exn + St) (st : St) : exn + St :=
  match arr with
  | Some (JArr items) => forEach_from f items 0 st
  | _ => inl TypeError
  end.

(** An object under construction: a property may hold [undefined]. Writing a
    key that exists replaces its value in place, a new key goes last. *)
Fixpoint set_prop (k : string) (v : jsval) (o : list (string * jsval))
  : list (string * jsval) :=
  match o with
  | [] => [(k, v)]
  | (k', v') :: rest =>
      if String.eqb k k' then (k, v) :: rest else (k', v') :: set_prop k v rest
  end.

(** [{ ...o, ...src }] for [src] an object, as the result of a [z.object]
    parse is: the own properties of [src], in order, written over [o].
    Spreading [undefined] or [null] adds nothing. *)
Definition spread (src : jsval) (o : list (string * jsval))
  : list (string * jsval) :=
  match src with
  | Some (JObj props) =>
      fold_left (fun acc kv => set_prop (fst kv) (Some (snd kv)) acc) props o
  | _ => o
  end.

(** The JSON value [JSON.stringify] sees: a property holding [undefined] is
    left out. *)
Fixpoint defined_props (o : list (string * jsval)) : list (string * json) :=
  match o with
  | [] => []
  | (k, Some v) :: rest => (k, v) :: defined_props rest
  | (_, None) :: rest => defined_props rest
  end.

Section Service.

Variable rt : Runtime.
Variable world : World.

(** [generatePrompt]: the template with [JSON.stringify(transcript, null, 2)]
    in its hole ([JSON.stringify(undefined)] is [undefined]). *)
Definition generatePrompt (transcript : jsval) : string :=
  prompt_head
    ++ match transcript with
       | Some t => JSON_stringify_2 (Number_toString rt) t
       | None => "undefined"
       end
    ++ prompt_tail.

(** The bulleted line of [takeaways.forEach] and [actionItems.forEach]. *)
Definition bullet (slide : nat) (line : jsval) (index : nat)
  (pptx : PptxGenJS.Presentation) : PptxGenJS.Presentation :=
  PptxGenJS.addText slide
    (Some (JStr ("• " ++ interpolate (Number_toString rt) line)))
    {| PptxGenJS.x := 1; PptxGenJS.y := 1 + inject_Z (Z.of_nat index) * (1 # 2);
       PptxGenJS.w := None; PptxGenJS.h := None;
       PptxGenJS.fontSize := 14; PptxGenJS.bold := None |}
    pptx.

(** The slides [generatePresentation] has built when it calls [pptx.write()]. *)
Definition presentation (data : jsval) : exn + PptxGenJS.Presentation :=
  let pptx := PptxGenJS.new in

  let '(pptx, slide) := PptxGenJS.addSlide pptx in
  match get_prop data "title" with inl e => inl e | inr title =>
  let pptx := PptxGenJS.addText slide title
    {| PptxGenJS.x := 1; PptxGenJS.y := 1; PptxGenJS.w := Some "80%";
       PptxGenJS.h := Some 1%Q; PptxGenJS.fontSize := 24;
       PptxGenJS.bold := Some true |} pptx in

  let '(pptx, slide) := PptxGenJS.addSlide pptx in
  let pptx := PptxGenJS.addText slide (Some (JStr "Summary"))
    {| PptxGenJS.x := 1; PptxGenJS.y := 1 # 2; PptxGenJS.w := None;
       PptxGenJS.h := None; PptxGenJS.fontSize := 18;
       PptxGenJS.bold := Some true |} pptx in
  match get_prop data "description" with inl e => inl e | inr description =>
  let pptx := PptxGenJS.addText slide description
    {| PptxGenJS.x := 1; PptxGenJS.y := 1; PptxGenJS.w := Some "80%";
       PptxGenJS.h := Some 4%Q; PptxGenJS.fontSize := 14;
       PptxGenJS.bold := None |} pptx in

  let '(pptx, slide) := PptxGenJS.addSlide pptx in
  let pptx := PptxGenJS.addText slide (Some (JStr "Key Points"))
    {| PptxGenJS.x := 1; PptxGenJS.y := 1 # 2; PptxGenJS.w := None;
       PptxGenJS.h := None; PptxGenJS.fontSize := 18;
       PptxGenJS.bold := Some true |} pptx in
  match get_prop data "takeaways" with inl e => inl e | inr takeaways =>
  match forEach takeaways
          (fun point index pptx => inr (bullet slide (Some point) index pptx))
          pptx
  with inl e => inl e | inr pptx =>

  let '(pptx, slide) := PptxGenJS.addSlide pptx in
  let pptx := PptxGenJS.addText slide (Some (JStr "Action Items"))
    {| PptxGenJS.x := 1; PptxGenJS.y := 1 # 2; PptxGenJS.w := None;
       PptxGenJS.h := None; PptxGenJS.fontSize := 18;
       PptxGenJS.bold := Some true |} pptx in
  match get_prop data "actionItems" with inl e => inl e | inr actionItems =>
  forEach actionItems
    (fun item index pptx =>
       match get_prop (Some item) "description" with
       | inl e => inl e
       | inr description => inr (bullet slide description index pptx)
       end)
    pptx
  end end end end end.

(** [generatePresentation(data, id)]; [id] is not read. *)
Definition generatePresentation (data : jsval) (id : jsval) : IO Blob :=
  pptx <- lift (presentation data) ;;
  call (WriteFile pptx) (inr (pptx_write world pptx)).

(** The base of the backend's URLs: [${process.env.BACKEND_API_URL}]. *)
Definition backend : string :=
  interpolate (Number_toString rt) (option_map JStr (BACKEND_API_URL world)).

Definition signed_url (id : string) : string :=
  backend ++ "/signed-url/" ++ id.

(** [getPresignedUploadUrl(id)] *)
Definition getPresignedUploadUrl (id : string) : IO jsval :=
  response <- call (Fetch (signed_url id) None) (fetch world (signed_url id) None) ;;
  if negb (ok response) then
    throw (Error "Failed to get pre-signed upload URL")
  else
    data <- lift (response_json response) ;;
    lift (get_prop (Some data) "url").

(** The question put to the chatbot. *)
Definition question (prompt : string) : AskCall :=
  {| integration := "zenai";
     profile := "zenai-summary-bot";
     prompt := prompt;
     responseFormat := "json_object";
     temperature := 3 # 10 |}.

(** The object [{ id, email, ...data }] as [JSON.stringify] sees it. *)
Definition meeting_record (id email data : jsval) : json :=
  JObj (defined_props (spread data [("id", id); ("email", email)])).

Definition meeting_url : string := backend ++ "/meeting".

(** The upsert sent to the metadata store. *)
Definition meeting_put (id email data : jsval) : RequestInit :=
  {| method := "PUT";
     headers := [("Content-Type", "application/json")];
     body := Text (JSON_stringify (Number_toString rt)
                     (meeting_record id email data)) |}.

(** The name of the uploaded file: [presentation-${id}.pptx]. *)
Definition artifact (id : jsval) : string :=
  "presentation-" ++ interpolate (Number_toString rt) id ++ ".pptx".

(** The transfer of the file to the presigned URL. *)
Definition upload_put (pptxBlob : Blob) : RequestInit :=
  {| method := "PUT";
     headers := [("Content-Type", "application/octet-stream")];
     body := Binary pptxBlob |}.

(** [JSON.parse(text)] *)
Definition parse_json (text : string) : exn + json :=
  match JSON_parse rt text with
  | Some v => inr v
  | None => inl SyntaxError
  end.

(** [handleSummary(request)] on [request.body], for the metadata schema the
    module ["schema"] exports. *)
Definition handleSummaryWith (insertMeetingMetadataSchema : schema)
  (request_body : jsval) : IO Result :=
  match safeParse (zod_email rt) Schema.requestSchema request_body with
  | Failure _ =>
      ret {| success := false; error := EMessage "Invalid request" |}
  | Success data =>
      id <- lift (get_prop data "id") ;;
      email <- lift (get_prop data "email") ;;
      transcript <- lift (get_prop data "transcript") ;;
      let prompt := generatePrompt transcript in
      result <- call (Ask (question prompt)) (chatbot_ask world (question prompt)) ;;
      parsed <- lift (parse_json result) ;;
      match safeParse (zod_email rt) insertMeetingMetadataSchema (Some parsed) with
      | Failure e => ret {| success := false; error := EZod e |}
      | Success data =>
          res <- call (Fetch meeting_url (Some (meeting_put id email data)))
                      (fetch world meeting_url (Some (meeting_put id email data))) ;;
          if negb (ok res) then
            ret {| success := false;
                   error := EMessage "Failed to update meeting metadata" |}
          else
            pptxBlob <- generatePresentation data id ;;
            uploadUrl <- getPresignedUploadUrl (artifact id) ;;
            let url := interpolate (Number_toString rt) uploadUrl in
            uploadRes <- call (Fetch url (Some (upload_put pptxBlob)))
                              (fetch world url (Some (upload_put pptxBlob))) ;;
            if negb (ok uploadRes) then
              ret {| success := false;
                     error := EMessage "Failed to upload presentation" |}
            else
              ret {| success := true; error := ENull |}
      end
  end.

(** The service as deployed: ["schema"] is the strict module. *)
Definition handleSummary (request_body : jsval) : IO Result :=
  handleSummaryWith Schema.insertMeetingMetadataSchema request_body.

End Service.

(** ** Views used in the statements *)

(** The fields of a shape, parsed one by one against the properties of an
    object: the loop inside [parse] at [z_object]. *)
Fixpoint parse_shape (zod_email : string -> bool) (p : list path_elem)
  (props : list (string * json)) (sh : list (string * schema))
  : ZodError * list (string * json) :=
  match sh with
  | [] => ([], [])
  | (k, sk) :: rest =>
      let '(e, o) := parse zod_email sk (p ++ [PKey k])%list (lookup k props) in
      let '(es, os) := parse_shape zod_email p props rest in
      ((e ++ es)%list, match o with Some y => (k, y) :: os | None => os end)
  end.

(** The elements of an array, parsed one by one from index [i]: the loop
    inside [parse] at [z_array]. *)
Fixpoint parse_items (zod_email : string -> bool) (element : schema)
  (p : list path_elem) (i : nat) (l : list json) : ZodError * list json :=
  match l with
  | [] => ([], [])
  | x :: rest =>
      let '(e, o) := parse zod_email element (p ++ [PIndex i])%list (Some x) in
      let '(es, os) := parse_items zod_email element p (S i) rest in
      ((e ++ es)%list, match o with Some y => y :: os | None => os end)
  end.

(** How [serialize] wraps the parts of an array or of an object. *)
Definition bracket (gap stepback opening closing : string)
  (parts : list string) : string :=
  let indent := stepback ++ gap in
  match parts with
  | [] => opening ++ closing
  | _ =>
      if String.eqb gap "" then opening ++ join "," parts ++ closing
      else opening ++ newline ++ indent
             ++ join ("," ++ newline ++ indent) parts
             ++ newline ++ stepback ++ closing
  end.

(** A schema that is not wrapped in [.optional()]. *)
Definition required (s : schema) : bool :=
  match s with
  | z_optional _ => false
  | _ => true
  end.

(** [lacks s v]: somewhere in [v], an object is without a key that [s]
    declares there and does not mark [.optional()]. *)
Inductive lacks : schema -> json -> Prop :=
| lacks_here shape props k sk :
    In (k, sk) shape -> required sk = true -> lookup k props = None ->
    lacks (z_object shape) (JObj props)
| lacks_below shape props k sk v :
    In (k, sk) shape -> lookup k props = Some v -> lacks sk v ->
    lacks (z_object shape) (JObj props)
| lacks_item element items v :
    In v items -> lacks element v ->
    lacks (z_array element) (JArr items)
| lacks_optional inner v :
    lacks inner v ->
    lacks (z_optional inner) v.

Definition shape_of (s : schema) : list (string * schema) :=
  match s with
  | z_object shape => shape
  | _ => []
  end.

(** The type [TranscriptBlock] of the module ["types"], as the request schema
    gives it. *)
Record TranscriptBlock : Type := {
  personName : string;
  timestamp : string;
  text : string
}.

Definition block_json (b : TranscriptBlock) : json :=
  JObj [("personName", JStr (personName b));
        ("timestamp", JStr (timestamp b));
        ("text", JStr (text b))].

Definition transcript_json (t : list TranscriptBlock) : json :=
  JArr (map block_json t).









(** A request that passed [requestSchema], as the type the schema infers. *)
Record Request : Type := {
  request_id : string;
  request_email : string;
  startTime : string;
  endTime : string;
  participants : list string;
  transcript : list TranscriptBlock
}.

Definition request_json (r : Request) : json :=
  JObj [("id", JStr (request_id r));
        ("email", JStr (request_email r));
        ("startTime", JStr (startTime r));
        ("endTime", JStr (endTime r));
        ("participants", JArr (map JStr (participants r)));
        ("transcript", transcript_json (transcript r))].

(** An [email] property that passes [z.string().email()]. *)
Definition valid_email (rt : Runtime) (v : jsval) : bool :=
  match v with
  | Some (JStr e) => zod_email rt e
  | _ => false
  end.

(** The slides of a presentation that was built without a throw. *)
Definition slides (rt : Runtime) (data : jsval) : PptxGenJS.Presentation :=
  match presentation rt data with
  | inr pptx => pptx
  | inl _ => []
  end.

(** The text boxes of the four slides. *)
Definition title_box (t : jsval) : PptxGenJS.TextBox :=
  {| PptxGenJS.text := t;
     PptxGenJS.options :=
       {| PptxGenJS.x := 1; PptxGenJS.y := 1; PptxGenJS.w := Some "80%";
          PptxGenJS.h := Some 1%Q; PptxGenJS.fontSize := 24;
          PptxGenJS.bold := Some true |} |}.

Definition heading_box (t : string) : PptxGenJS.TextBox :=
  {| PptxGenJS.text := Some (JStr t);
     PptxGenJS.options :=
       {| PptxGenJS.x := 1; PptxGenJS.y := 1 # 2; PptxGenJS.w := None;
          PptxGenJS.h := None; PptxGenJS.fontSize := 18;
          PptxGenJS.bold := Some true |} |}.

Definition description_box (t : jsval) : PptxGenJS.TextBox :=
  {| PptxGenJS.text := t;
     PptxGenJS.options :=
       {| PptxGenJS.x := 1; PptxGenJS.y := 1; PptxGenJS.w := Some "80%";
          PptxGenJS.h := Some 4%Q; PptxGenJS.fontSize := 14;
          PptxGenJS.bold := None |} |}.

Definition bullet_box (index : nat) (line : string) : PptxGenJS.TextBox :=
  {| PptxGenJS.text := Some (JStr ("• " ++ line));
     PptxGenJS.options :=
       {| PptxGenJS.x := 1;
          PptxGenJS.y := 1 + inject_Z (Z.of_nat index) * (1 # 2);
          PptxGenJS.w := None; PptxGenJS.h := None;
          PptxGenJS.fontSize := 14; PptxGenJS.bold := None |} |}.

(** One bulleted line per entry, in order, the first at index [i]. *)
Fixpoint bullets_from (i : nat) (entries : list string) : PptxGenJS.Slide :=
  match entries with
  | [] => []
  | e :: rest => bullet_box i e :: bullets_from (S i) rest
  end.

(** What the renderer reads of a validated response: the title, the
    description, the takeaways and the descriptions of the action items. *)
Record MeetingView : Type := {
  view_title : string;
  view_description : string;
  view_takeaways : list string;
  view_actionItems : list string
}.

(** [data] shows [v]: the four properties the renderer reads hold the values
    of [v], each action item being an object whose [description] is the
    corresponding entry. *)
Definition shows (data : jsval) (v : MeetingView) : Prop :=
  field data "title" = Some (JStr (view_title v)) /\
  field data "description" = Some (JStr (view_description v)) /\
  field data "takeaways" = Some (JArr (map JStr (view_takeaways v))) /\
  exists items,
    field data "actionItems" = Some (JArr items) /\
    Forall2 (fun item d => field (Some item) "description" = Some (JStr d))
      items (view_actionItems v).

(** The four slides for a view. *)
Definition deck (v : MeetingView) : PptxGenJS.Presentation :=
  [ [title_box (Some (JStr (view_title v)))];
    [heading_box "Summary"; description_box (Some (JStr (view_description v)))];
    heading_box "Key Points" :: bullets_from 0 (view_takeaways v);
    heading_box "Action Items" :: bullets_from 0 (view_actionItems v) ].

(** A computation only ever adds calls to the trace. *)
Definition extends {A : Type} (m : IO A) : Prop :=
  forall tr, exists more, fst (m tr) = (tr ++ more)%list.

(** The upserts to the metadata store in a trace: the [fetch] calls to [url]
    that carry a text body. *)
Definition is_upsert (url : string) (ev : Event) : bool :=
  match ev with
  | Fetch u (Some init) =>
      String.eqb u url && match body init with Text _ => true | Binary _ => false end
  | _ => false
  end.

Definition upserts (url : string) (tr : list Event) : nat :=
  List.length (filter (is_upsert url) tr).

(** The status of an answer, when there is one. *)
Definition ok_of (answer : exn + Response) : option bool :=
  match answer with
  | inr response => Some (ok response)
  | inl _ => None
  end.

(** ** The calls of one run, named *)

Section Calls.

Variable rt : Runtime.
Variable world : World.

(** The question asked for validated request data. *)
Definition asked (data : jsval) : AskCall :=
  question (generatePrompt rt (field data "transcript")).

(** The upsert for validated request data and validated metadata. *)
Definition stored (data mdata : jsval) : RequestInit :=
  meeting_put rt (field data "id") (field data "email") mdata.

(** The URL asked of the presigned-URL service. *)
Definition signing (data : jsval) : string :=
  signed_url rt world (artifact rt (field data "id")).

(** The transfer of the file rendered from validated metadata. *)
Definition uploaded (mdata : jsval) : RequestInit :=
  upload_put (pptx_write world (slides rt mdata)).

End Calls.

(** ** A concrete runtime and concrete worlds

    Used to run the handler on explicit inputs. *)
Module Example.

(** Number::toString on the integers, which are the numbers used below. *)
Definition integer_toString (q : Q) : string :=
  DecimalString.NilZero.string_of_int (Z.to_int (Qnum q / Z.pos (Qden q))).

Fixpoint contains (c : ascii) (s : string) : bool :=
  match s with
  | EmptyString => false
  | String d rest => Ascii.eqb c d || contains c rest
  end.

(** A stand-in for zod's test: something, an [@], something with a dot. *)
Fixpoint simple_email (s : string) : bool :=
  match s with
  | EmptyString => false
  | String c rest =>
      if Ascii.eqb c "@"%char then false
      else match rest with
           | String d domain =>
               if Ascii.eqb d "@"%char
               then contains "."%char domain && negb (contains "@"%char domain)
               else simple_email rest
           | EmptyString => false
           end
  end.

(** A fully populated response of the chatbot. *)
Definition metadata : json :=
  JObj [
    ("title", JStr "Weekly sync");
    ("shortDescription", JStr "Status and budget");
    ("description", JStr "The team went through the status report and the budget.");
    ("takeaways", JArr [JStr "On track"; JStr "Budget slightly over"]);
    ("actionItems", JArr [
       JObj [("id", JStr "a1"); ("description", JStr "Update the budget");
             ("assignee", JStr "Dave"); ("deadline", JStr "2024-08-09T00:00:00Z");
             ("status", JStr "pending")]]);
    ("moodGraph", JObj [
       ("aspects", JArr [JObj [("mood", JStr "engagement"); ("score", JNum (Finite 80))]]);
       ("timestamp", JStr "2024-08-08T09:00:00Z")]);
    ("timeline", JArr [
       JObj [("startTime", JStr "2024-08-08T09:00:00Z");
             ("endTime", JStr "2024-08-08T09:10:00Z");
             ("topic", JStr "Status"); ("speaker", JStr "Bob")]]);
    ("participantEngagement", JArr [
       JObj [("participantId", JStr "Alice"); ("speakingTime", JNum (Finite 120));
             ("interventionCount", JNum (Finite 7));
             ("engagementScore", JNum (Finite 90))]]);
    ("sentimentOverTime", JObj [
       ("overallSentiment", JNum (Finite 70));
       ("sentimentPoints", JArr [
          JObj [("timestamp", JStr "2024-08-08T09:05:00Z");
                ("sentiment", JNum (Finite 65))]])]);
    ("questionTracker", JArr [
       JObj [("id", JStr "q1"); ("text", JStr "Any blockers?");
             ("askedBy", JStr "Charlie"); ("timestamp", JStr "2024-08-08T09:04:00Z");
             ("answered", JBool true)]]);
    ("resourceLinks", JArr [
       JObj [("id", JStr "r1"); ("url", JStr "https://example.org/report");
             ("title", JStr "Status report"); ("type", JStr "document");
             ("mentionedAt", JStr "2024-08-08T09:01:00Z")]]);
    ("meetingEfficiencyScore", JNum (Finite 85))
  ].

(** The same response without its last field. *)
Definition metadata_without_score : json :=
  match metadata with
  | JObj props => JObj (removelast props)
  | other => other
  end.

(** A response whose one action item has no [id]. *)
Definition metadata_without_item_id : json :=
  JObj [
    ("title", JStr "Weekly sync");
    ("shortDescription", JStr "Status and budget");
    ("description", JStr "The team went through the status report and the budget.");
    ("takeaways", JArr []);
    ("actionItems", JArr [
       JObj [("description", JStr "Update the budget");
             ("assignee", JStr "Dave"); ("deadline", JStr "2024-08-09T00:00:00Z");
             ("status", JStr "pending")]]);
    ("moodGraph", JObj [
       ("aspects", JArr []); ("timestamp", JStr "2024-08-08T09:00:00Z")]);
    ("timeline", JArr []);
    ("participantEngagement", JArr []);
    ("sentimentOverTime", JObj [
       ("overallSentiment", JNum (Finite 70)); ("sentimentPoints", JArr [])]);
    ("questionTracker", JArr []);
    ("resourceLinks", JArr []);
    ("meetingEfficiencyScore", JNum (Finite 85))
  ].

(** The same response with keys of its own added in front. *)
Definition metadata_with_id : json :=
  match metadata with
  | JObj props =>
      JObj (("id", JStr "intruder") :: ("email", JStr "x@evil.example")
              :: ("note", JStr "extra") :: props)
  | other => other
  end.

(** [JSON.parse] on the documents of this module, by their [JSON.stringify]
    text; every other text used below is not JSON. *)
Definition parse_known (s : string) : option json :=
  find (fun doc => String.eqb (JSON_stringify integer_toString doc) s)
    [metadata; metadata_without_score; metadata_without_item_id;
     metadata_with_id].

Definition rt : Runtime :=
  {| Number_toString := integer_toString;
     zod_email := simple_email;
     JSON_parse := parse_known |}.

(** The request of the end-to-end scenario. *)
Definition request (startTime endTime : string) (participants : list json) : json :=
  JObj [
    ("id", JStr "m1");
    ("email", JStr "a@b.com");
    ("startTime", JStr startTime);
    ("endTime", JStr endTime);
    ("participants", JArr participants);
    ("transcript", JArr [
       JObj [("personName", JStr "Alice"); ("timestamp", JStr "t0");
             ("text", JStr "hello")]])
  ].

Definition m1 : json := request "t0" "t1" [JStr "Alice"].

(** The same request with other times and participants. *)
Definition m1_later : json := request "t2" "t3" [JStr "Alice"; JStr "Bob"].

(** What [requestSchema] makes of [m1]. *)
Definition m1_request : Request :=
  {| request_id := "m1";
     request_email := "a@b.com";
     startTime := "t0";
     endTime := "t1";
     participants := ["Alice"];
     transcript := [{| personName := "Alice"; timestamp := "t0"; text := "hello" |}] |}.

Definition m1_data : jsval := Some (request_json m1_request).





(** The request with an [email] that is no address. *)
Definition bad_email : json :=
  JObj [("id", JStr "m1"); ("email", JStr "not an address");
        ("startTime", JStr "t0"); ("endTime", JStr "t1");
        ("participants", JArr [JStr "Alice"]); ("transcript", JArr [])].

(** A body with no [email]. *)
Definition no_email : json :=
  JObj [("id", JStr "m1"); ("startTime", JStr "t0"); ("endTime", JStr "t1");
        ("participants", JArr []); ("transcript", JArr [])].

Definition respond (status : bool) (content : json) : exn + Response :=
  inr {| ok := status; response_json := inr content |}.

(** A world whose chatbot answers [answer] and whose metadata store,
    presigned-URL service and upload target answer with the given statuses. *)
Definition world (answer : string) (store signer target : bool) : World :=
  {| BACKEND_API_URL := Some "https://backend.example";
     chatbot_ask := fun _ => inr answer;
     fetch := fun url init =>
       match init with
       | None =>
           respond signer (JObj [("url", JStr "https://storage.example/put")])
       | Some i =>
           match body i with
           | Text _ => respond store JNull
           | Binary _ => respond target JNull
           end
       end;
     pptx_write := fun pptx =>
       lines (map (fun slide =>
                     join " | " (map (fun box => interpolate integer_toString
                                                  (PptxGenJS.text box)) slide))
                pptx) |}.

Definition answer : string := JSON_stringify integer_toString metadata.

Definition answer_without_score : string :=
  JSON_stringify integer_toString metadata_without_score.

Definition answer_without_item_id : string :=
  JSON_stringify integer_toString metadata_without_item_id.


(** What the signing service of [world] answers. *)
Definition signed_content : json := JObj [("url", JStr "https://storage.example/put")].

(** What the renderer reads of [metadata]. *)
Definition metadata_view : MeetingView :=
  {| view_title := "Weekly sync";
     view_description := "The team went through the status report and the budget.";
     view_takeaways := ["On track"; "Budget slightly over"];
     view_actionItems := ["Update the budget"] |}.

(** The text of the record stored for [m1] and [metadata], as
    [JSON.stringify] prints it ([^] stands for the double quote). *)
Definition m1_stored_text : string :=
  unq (join ""
    ["{^id^:^m1^,^email^:^a@b.com^,^title^:^Weekly sync^,";
     "^shortDescription^:^Status and budget^,";
     "^description^:^The team went through the status report and the budget.^,";
     "^takeaways^:[^On track^,^Budget slightly over^],";
     "^actionItems^:[{^id^:^a1^,^description^:^Update the budget^,";
     "^assignee^:^Dave^,^deadline^:^2024-08-09T00:00:00Z^,";
     "^status^:^pending^}],^moodGraph^:{^aspects^:[{^mood^:^engagement^,";
     "^score^:80}],^timestamp^:^2024-08-08T09:00:00Z^},";
     "^timeline^:[{^startTime^:^2024-08-08T09:00:00Z^,";
     "^endTime^:^2024-08-08T09:10:00Z^,^topic^:^Status^,";
     "^speaker^:^Bob^}],";
     "^participantEngagement^:[{^participantId^:^Alice^,";
     "^speakingTime^:120,^interventionCount^:7,^engagementScore^:90}],";
     "^sentimentOverTime^:{^overallSentiment^:70,";
     "^sentimentPoints^:[{^timestamp^:^2024-08-08T09:05:00Z^,";
     "^sentiment^:65}]},^questionTracker^:[{^id^:^q1^,";
     "^text^:^Any blockers?^,^askedBy^:^Charlie^,";
     "^timestamp^:^2024-08-08T09:04:00Z^,^answered^:true}],";
     "^resourceLinks^:[{^id^:^r1^,^url^:^https://example.org/report^,";
     "^title^:^Status report^,^type^:^document^,";
     "^mentionedAt^:^2024-08-08T09:01:00Z^}],";
     "^meetingEfficiencyScore^:85}"]).

End Example.


(** ** What a schema refuses, said without running it *)

(** The [typeof] a schema asks of a value that is there. *)
Fixpoint type_ok (s : schema) (v : json) : bool :=
  match s, v with
  | z_string _, JStr _ => true
  | z_number, JNum _ => true
  | z_boolean, JBool _ => true
  | z_enum _, JStr _ => true
  | z_array _, JArr _ => true
  | z_object _, JObj _ => true
  | z_optional inner, _ => type_ok inner v
  | _, _ => false
  end.

(** [violates is_email s v]: somewhere in [v] a value has the wrong type, a
    string is shorter than its [.min(n)], is refused by [.email()] or is
    outside its [z.enum], or an object is without a key that is declared and
    not [.optional()]. *)
Inductive violates (is_email : string -> bool) : schema -> json -> Prop :=
| violates_type s v :
    type_ok s v = false ->
    violates is_email s v
| violates_min checks n str :
    In (min n) checks -> String.length str < n ->
    violates is_email (z_string checks) (JStr str)
| violates_email checks str :
    In email checks -> is_email str = false ->
    violates is_email (z_string checks) (JStr str)
| violates_enum values str :
    mem str values = false ->
    violates is_email (z_enum values) (JStr str)
| violates_missing shape props k sk :
    In (k, sk) shape -> required sk = true -> lookup k props = None ->
    violates is_email (z_object shape) (JObj props)
| violates_field shape props k sk v :
    In (k, sk) shape -> lookup k props = Some v -> violates is_email sk v ->
    violates is_email (z_object shape) (JObj props)
| violates_item element items v :
    In v items -> violates is_email element v ->
    violates is_email (z_array element) (JArr items)
| violates_optional inner v :
    violates is_email inner v ->
    violates is_email (z_optional inner) v.

Fixpoint nodupb (l : list string) : bool :=
  match l with
  | [] => true
  | x :: rest => negb (mem x rest) && nodupb rest
  end.

(** A schema as a [z.object({...})] literal can make it: no shape declares a
    key twice. *)
Fixpoint distinct_keys (s : schema) : bool :=
  match s with
  | z_array element => distinct_keys element
  | z_optional inner => distinct_keys inner
  | z_object shape =>
      nodupb (map fst shape)
      && (fix all (sh : list (string * schema)) : bool :=
            match sh with
            | [] => true
            | (_, sk) :: rest => distinct_keys sk && all rest
            end) shape
  | _ => true
  end.

(** ** The request type with its constraints *)

Definition block_ok (b : TranscriptBlock) : Prop :=
  personName b <> "" /\ timestamp b <> "" /\ text b <> "".

(** The constraints [requestSchema] puts on a [Request]: every string but the
    email is non-empty, the email passes the email test. *)
Definition well_formed (is_email : string -> bool) (r : Request) : Prop :=
  request_id r <> "" /\
  is_email (request_email r) = true /\
  startTime r <> "" /\
  endTime r <> "" /\
  Forall (fun s => s <> "") (participants r) /\
  Forall block_ok (transcript r).

(** ** The runs of the handler, by the stage they end in *)

Section Runs.

Variable rt : Runtime.
Variable world : World.

(** Both validations passed: the body, and the chatbot's answer to it. *)
Definition validated (body data : jsval) (answer : string) (parsed : json)
  (mdata : jsval) : Prop :=
  safeParse (zod_email rt) Schema.requestSchema body = Success data /\
  chatbot_ask world (asked rt data) = inr answer /\
  JSON_parse rt answer = Some parsed /\
  safeParse (zod_email rt) Schema.insertMeetingMetadataSchema (Some parsed)
    = Success mdata.

(** The metadata store took the record. *)
Definition persisted (body data mdata : jsval) : Prop :=
  exists answer parsed res,
    validated body data answer parsed mdata /\
    fetch world (meeting_url rt world) (Some (stored rt data mdata)) = inr res /\
    ok res = true.

(** The presigned-URL service gave [uploadUrl]. *)
Definition signed_for (body data mdata uploadUrl : jsval) : Prop :=
  persisted body data mdata /\
  exists response content,
    fetch world (signing rt world data) None = inr response /\
    ok response = true /\
    response_json response = inr content /\
    get_prop (Some content) "url" = inr uploadUrl.

(** The calls up to the chatbot, up to the store, up to the presigned-URL
    service, and up to the upload target. *)
Definition calls_to_chatbot (data : jsval) : list Event :=
  [Ask (asked rt data)].

Definition calls_to_store (data mdata : jsval) : list Event :=
  [Ask (asked rt data);
   Fetch (meeting_url rt world) (Some (stored rt data mdata))].

Definition calls_to_signer (data mdata : jsval) : list Event :=
  [Ask (asked rt data);
   Fetch (meeting_url rt world) (Some (stored rt data mdata));
   WriteFile (slides rt mdata);
   Fetch (signing rt world data) None].

Definition calls_to_target (data mdata uploadUrl : jsval) : list Event :=
  [Ask (asked rt data);
   Fetch (meeting_url rt world) (Some (stored rt data mdata));
   WriteFile (slides rt mdata);
   Fetch (signing rt world data) None;
   Fetch (interpolate (Number_toString rt) uploadUrl)
     (Some (uploaded rt world mdata))].

(** The thirteen ways a run of [handleSummary] on [body] can end: the calls it
    has made, and what it returns or throws. *)
Inductive Outcome (body : jsval) : list Event -> Completion Result -> Prop :=
| out_invalid e :
    safeParse (zod_email rt) Schema.requestSchema body = Failure e ->
    Outcome body []
      (Normal {| success := false; error := EMessage "Invalid request" |})
| out_chatbot_rejects data e :
    safeParse (zod_email rt) Schema.requestSchema body = Success data ->
    chatbot_ask world (asked rt data) = inl e ->
    Outcome body (calls_to_chatbot data) (Throw e)
| out_not_json data answer :
    safeParse (zod_email rt) Schema.requestSchema body = Success data ->
    chatbot_ask world (asked rt data) = inr answer ->
    JSON_parse rt answer = None ->
    Outcome body (calls_to_chatbot data) (Throw SyntaxError)
| out_answer_refused data answer parsed e :
    safeParse (zod_email rt) Schema.requestSchema body = Success data ->
    chatbot_ask world (asked rt data) = inr answer ->
    JSON_parse rt answer = Some parsed ->
    safeParse (zod_email rt) Schema.insertMeetingMetadataSchema (Some parsed)
      = Failure e ->
    Outcome body (calls_to_chatbot data)
      (Normal {| success := false; error := EZod e |})
| out_store_rejects data answer parsed mdata e :
    validated body data answer parsed mdata ->
    fetch world (meeting_url rt world) (Some (stored rt data mdata)) = inl e ->
    Outcome body (calls_to_store data mdata) (Throw e)
| out_store_refuses data answer parsed mdata res :
    validated body data answer parsed mdata ->
    fetch world (meeting_url rt world) (Some (stored rt data mdata)) = inr res ->
    ok res = false ->
    Outcome body (calls_to_store data mdata)
      (Normal {| success := false;
                 error := EMessage "Failed to update meeting metadata" |})
| out_signer_rejects data mdata e :
    persisted body data mdata ->
    fetch world (signing rt world data) None = inl e ->
    Outcome body (calls_to_signer data mdata) (Throw e)
| out_signer_refuses data mdata response :
    persisted body data mdata ->
    fetch world (signing rt world data) None = inr response ->
    ok response = false ->
    Outcome body (calls_to_signer data mdata)
      (Throw (Error "Failed to get pre-signed upload URL"))
| out_signer_unreadable data mdata response e :
    persisted body data mdata ->
    fetch world (signing rt world data) None = inr response ->
    ok response = true ->
    response_json response = inl e ->
    Outcome body (calls_to_signer data mdata) (Throw e)
| out_signer_null data mdata response content e :
    persisted body data mdata ->
    fetch world (signing rt world data) None = inr response ->
    ok response = true ->
    response_json response = inr content ->
    get_prop (Some content) "url" = inl e ->
    Outcome body (calls_to_signer data mdata) (Throw e)
| out_target_rejects data mdata uploadUrl e :
    signed_for body data mdata uploadUrl ->
    fetch world (interpolate (Number_toString rt) uploadUrl)
      (Some (uploaded rt world mdata)) = inl e ->
    Outcome body (calls_to_target data mdata uploadUrl) (Throw e)
| out_target_refuses data mdata uploadUrl res :
    signed_for body data mdata uploadUrl ->
    fetch world (interpolate (Number_toString rt) uploadUrl)
      (Some (uploaded rt world mdata)) = inr res ->
    ok res = false ->
    Outcome body (calls_to_target data mdata uploadUrl)
      (Normal {| success := false;
                 error := EMessage "Failed to upload presentation" |})
| out_done data mdata uploadUrl res :
    signed_for body data mdata uploadUrl ->
    fetch world (interpolate (Number_toString rt) uploadUrl)
      (Some (uploaded rt world mdata)) = inr res ->
    ok res = true ->
    Outcome body (calls_to_target data mdata uploadUrl)
      (Normal {| success := true; error := ENull |}).

End Runs.

(** What a call goes to. *)
Inductive CallKind : Type :=
| to_chatbot
| to_fetch
| to_pptx.

Definition kind_of (ev : Event) : CallKind :=
  match ev with
  | Ask _ => to_chatbot
  | Fetch _ _ => to_fetch
  | WriteFile _ => to_pptx
  end.

(** How many times a character stands in a string. *)
Fixpoint occurrences (c : ascii) (s : string) : nat :=
  match s with
  | EmptyString => 0
  | String d rest => (if Ascii.eqb c d then 1 else 0) + occurrences c rest
  end.

(** The line breaks of a string. *)
Definition line_breaks (s : string) : nat := occurrences (ascii_of_nat 10) s.

(** The box at place [j] of slide [i]. *)
Definition box_at (pptx : PptxGenJS.Presentation) (i j : nat)
  : option PptxGenJS.TextBox :=
  match nth_error pptx i with
  | Some slide => nth_error slide j
  | None => None
  end.

(** ** Induction on schemas, through their shapes *)

Section SchemaInduction.

Variable P : schema -> Prop.
Hypothesis Hstring : forall checks, P (z_string checks).
Hypothesis Hnumber : P z_number.
Hypothesis Hboolean : P z_boolean.
Hypothesis Henum : forall values, P (z_enum values).
Hypothesis Harray : forall element, P element -> P (z_array element).
Hypothesis Hobject :
  forall shape, Forall (fun ks => P (snd ks)) shape -> P (z_object shape).
Hypothesis Hoptional : forall inner, P inner -> P (z_optional inner).

Fixpoint schema_nested_ind (s : schema) : P s :=
  match s with
  | z_string checks => Hstring checks
  | z_number => Hnumber
  | z_boolean => Hboolean
  | z_enum values => Henum values
  | z_array element => Harray element (schema_nested_ind element)
  | z_object shape =>
      Hobject shape
        ((fix all (sh : list (string * schema))
            : Forall (fun ks => P (snd ks)) sh :=
            match sh with
            | [] => Forall_nil _
            | (k, sk) :: rest =>
                Forall_cons (k, sk) (schema_nested_ind sk) (all rest)
            end) shape)
  | z_optional inner => Hoptional inner (schema_nested_ind inner)
  end.

End SchemaInduction.

(** ** More scenarios *)

Module More.

(** The fully populated response without its [takeaways]. *)
Definition metadata_without_takeaways : json :=
  match Example.metadata with
  | JObj props =>
      JObj (filter (fun kv => negb (String.eqb (fst kv) "takeaways")) props)
  | other => other
  end.

Definition answer_without_takeaways : string :=
  JSON_stringify Example.integer_toString metadata_without_takeaways.

(** [JSON.parse] on the documents of the scenarios. *)
Definition parse_known (s : string) : option json :=
  find (fun doc => String.eqb (JSON_stringify Example.integer_toString doc) s)
    [Example.metadata; metadata_without_takeaways].

Definition rt : Runtime :=
  {| Number_toString := Example.integer_toString;
     zod_email := Example.simple_email;
     JSON_parse := parse_known |}.

(** What a presigned-URL service answers when it names no address. *)
Definition unsigned_content : json := JObj [("expires", JNum (Finite 60))].

(** The world of the end-to-end scenario, but for the presigned-URL service,
    which answers with success and no [url]. *)
Definition world_without_url : World :=
  {| BACKEND_API_URL := Some "https://backend.example";
     chatbot_ask := fun _ => inr Example.answer;
     fetch := fun url init =>
       match init with
       | None => Example.respond true unsigned_content
       | Some _ => Example.respond true JNull
       end;
     pptx_write := pptx_write (Example.world Example.answer true true true) |}.

(** A validated answer that carries an [id] of its own, were the schema to
    declare one. *)
Definition data_with_id : list (string * json) :=
  [("id", JStr "intruder"); ("title", JStr "Weekly sync")].

End More.

(** * Facts *)

(** ** zod *)

Section ZodFacts.

Variable is_email : string -> bool.

Lemma parse_object_loop p props sh :
  (fix each (sh : list (string * schema)) : ZodError * list (string * json) :=
     match sh with
     | [] => ([], [])
     | (k, sk) :: rest =>
         let '(e, o) := parse is_email sk (p ++ [PKey k])%list (lookup k props) in
         let '(es, os) := each rest in
         ((e ++ es)%list, match o with Some y => (k, y) :: os | None => os end)
     end) sh = parse_shape is_email p props sh.
Proof.
  induction sh as [|[k sk] rest IH].
  - reflexivity.
  - simpl. rewrite IH. reflexivity.
Qed.

Lemma parse_object_shape p props sh :
  parse is_email (z_object sh) p (Some (JObj props)) =
  (fst (parse_shape is_email p props sh),
   Some (JObj (snd (parse_shape is_email p props sh)))).
Proof.
  cbn [parse]. rewrite parse_object_loop.
  destruct (parse_shape is_email p props sh); reflexivity.
Qed.

Lemma parse_array_loop element p items :
  forall i,
  (fix each (i : nat) (l : list json) : ZodError * list json :=
     match l with
     | [] => ([], [])
     | x :: rest =>
         let '(e, o) := parse is_email element (p ++ [PIndex i])%list (Some x) in
         let '(es, os) := each (S i) rest in
         ((e ++ es)%list, match o with Some y => y :: os | None => os end)
     end) i items = parse_items is_email element p i items.
Proof.
  induction items as [|x rest IH]; intros i.
  - reflexivity.
  - simpl. rewrite IH. reflexivity.
Qed.

Lemma parse_array_items element p items :
  parse is_email (z_array element) p (Some (JArr items)) =
  (fst (parse_items is_email element p 0 items),
   Some (JArr (snd (parse_items is_email element p 0 items)))).
Proof.
  cbn [parse]. rewrite parse_array_loop.
  destruct (parse_items is_email element p 0 items); reflexivity.
Qed.

Lemma parse_shape_cons p props k sk rest :
  parse_shape is_email p props ((k, sk) :: rest) =
  let r := parse is_email sk (p ++ [PKey k])%list (lookup k props) in
  let rs := parse_shape is_email p props rest in
  ((fst r ++ fst rs)%list,
   match snd r with Some y => (k, y) :: snd rs | None => snd rs end).
Proof.
  simpl.
  destruct (parse is_email sk (p ++ [PKey k])%list (lookup k props)).
  destruct (parse_shape is_email p props rest). reflexivity.
Qed.

Lemma parse_items_cons element p i x rest :
  parse_items is_email element p i (x :: rest) =
  let r := parse is_email element (p ++ [PIndex i])%list (Some x) in
  let rs := parse_items is_email element p (S i) rest in
  ((fst r ++ fst rs)%list,
   match snd r with Some y => y :: snd rs | None => snd rs end).
Proof.
  simpl.
  destruct (parse is_email element (p ++ [PIndex i])%list (Some x)).
  destruct (parse_items is_email element p (S i) rest). reflexivity.
Qed.

(** A shape raises no issue exactly when none of its fields does. *)
Lemma parse_shape_clean p props sh :
  fst (parse_shape is_email p props sh) = [] <->
  Forall (fun ks => fst (parse is_email (snd ks) (p ++ [PKey (fst ks)])%list
                           (lookup (fst ks) props)) = []) sh.
Proof.
  induction sh as [|[k sk] rest IH].
  - split; intros; [constructor | reflexivity].
  - rewrite parse_shape_cons. cbn [fst snd]. split.
    + intros H. apply app_eq_nil in H. destruct H as [H1 H2].
      constructor; [exact H1 | apply IH; exact H2].
    + intros H. inversion H as [|? ? H1 H2]; subst. cbn [fst snd] in H1.
      rewrite H1. apply IH in H2. rewrite H2. reflexivity.
Qed.

(** An issue of a field is an issue of the shape. *)
Lemma parse_shape_issue p props sh k sk issue :
  In (k, sk) sh ->
  In issue (fst (parse is_email sk (p ++ [PKey k])%list (lookup k props))) ->
  In issue (fst (parse_shape is_email p props sh)).
Proof.
  induction sh as [|[k' sk'] rest IH]; intros Hin Hissue.
  - contradiction.
  - rewrite parse_shape_cons. cbn [fst snd]. apply in_or_app.
    destruct Hin as [Heq | Hin].
    + inversion Heq; subst. left. exact Hissue.
    + right. apply IH; assumption.
Qed.

(** A schema that is not [.optional()] refuses [undefined]. *)
Lemma parse_required_undefined s p :
  required s = true ->
  parse is_email s p None = ([mkIssue invalid_type p], None).
Proof.
  destruct s; intros H; try reflexivity. discriminate H.
Qed.

(** A schema that is not [.optional()] and raises no issue has an output. *)
Lemma parse_required_output s p v :
  required s = true ->
  fst (parse is_email s p v) = [] ->
  exists y, snd (parse is_email s p v) = Some y.
Proof.
  intros Hreq Hclean.
  destruct s; try discriminate Hreq.
  - destruct v as [[]|]; try discriminate Hclean. eexists; reflexivity.
  - destruct v as [[]|]; try discriminate Hclean. eexists; reflexivity.
  - destruct v as [[]|]; try discriminate Hclean. eexists; reflexivity.
  - destruct v as [[]|]; try discriminate Hclean.
    cbn [parse] in *. destruct (mem s values); try discriminate Hclean.
    eexists; reflexivity.
  - destruct v as [[]|]; try discriminate Hclean.
    rewrite parse_array_items. eexists; reflexivity.
  - destruct v as [[]|]; try discriminate Hclean.
    rewrite parse_object_shape. eexists; reflexivity.
Qed.

(** The keys of the output of a shape whose fields are all required are the
    keys of the shape, in its order. *)
Lemma parse_shape_keys p props sh :
  forallb (fun ks => required (snd ks)) sh = true ->
  fst (parse_shape is_email p props sh) = [] ->
  keys (snd (parse_shape is_email p props sh)) = map fst sh.
Proof.
  induction sh as [|[k sk] rest IH]; intros Hreq Hclean.
  - reflexivity.
  - cbn [forallb snd] in Hreq. apply andb_prop in Hreq. destruct Hreq as [Hk Hrest].
    rewrite parse_shape_cons in *. cbn [fst snd] in *.
    apply app_eq_nil in Hclean. destruct Hclean as [H1 H2].
    destruct (parse_required_output sk _ _ Hk H1) as [y Hy].
    rewrite Hy. cbn [keys map fst]. f_equal. apply IH; assumption.
Qed.

(** The keys of the output of any shape are keys of the shape: an object
    schema strips every other key of its input. *)
Lemma parse_shape_strips p props sh k :
  In k (keys (snd (parse_shape is_email p props sh))) -> In k (map fst sh).
Proof.
  induction sh as [|[k' sk'] rest IH]; intros Hin.
  - exact Hin.
  - rewrite parse_shape_cons in Hin. cbn [fst snd] in Hin. cbn [map fst].
    destruct (snd (parse is_email sk' (p ++ [PKey k'])%list (lookup k' props))).
    + destruct Hin as [Heq | Hin]; [left; exact Heq | right; apply IH; exact Hin].
    + right. apply IH; exact Hin.
Qed.

(** What a field of the output is: the output of its schema on the field of
    the input. *)
Lemma parse_shape_lookup p props sh k sk :
  NoDup (map fst sh) ->
  In (k, sk) sh ->
  lookup k (snd (parse_shape is_email p props sh)) =
  snd (parse is_email sk (p ++ [PKey k])%list (lookup k props)).
Proof.
  induction sh as [|[k' sk'] rest IH]; intros Hnd Hin.
  - contradiction.
  - rewrite parse_shape_cons. cbn [fst snd].
    cbn [map fst] in Hnd. inversion Hnd as [|? ? Hfresh Hnd']; subst.
    destruct Hin as [Heq | Hin].
    + inversion Heq; subst.
      destruct (snd (parse is_email sk (p ++ [PKey k])%list (lookup k props))) eqn:Ho.
      * cbn [lookup]. rewrite String.eqb_refl. reflexivity.
      * destruct (lookup k (snd (parse_shape is_email p props rest))) eqn:Hl;
          [|reflexivity].
        exfalso. apply Hfresh. apply (parse_shape_strips p props).
        clear - Hl. induction (snd (parse_shape is_email p props rest)) as [|[a b] l IHl].
        -- discriminate.
        -- cbn [lookup] in Hl. cbn [keys map fst].
           destruct (String.eqb k a) eqn:E.
           ++ left. apply String.eqb_eq in E. symmetry; exact E.
           ++ right. apply IHl. exact Hl.
    + assert (k <> k') as Hne.
      { intros ->. apply Hfresh. apply (in_map fst) in Hin. exact Hin. }
      destruct (snd (parse is_email sk' (p ++ [PKey k'])%list (lookup k' props))).
      * cbn [lookup]. apply String.eqb_neq in Hne. rewrite Hne. apply IH; assumption.
      * apply IH; assumption.
Qed.

(** [safeParse] succeeds exactly when [parse] raises no issue. *)
Lemma safeParse_success s v data :
  safeParse is_email s v = Success data <-> parse is_email s [] v = ([], data).
Proof.
  unfold safeParse. destruct (parse is_email s [] v) as [[|i l] o]; split; intros H;
    try discriminate; inversion H; reflexivity.
Qed.

(** A failure carries the issues raised, and there is at least one. *)
Lemma safeParse_failure s v e :
  safeParse is_email s v = Failure e <->
  fst (parse is_email s [] v) = e /\ e <> [].
Proof.
  unfold safeParse. destruct (parse is_email s [] v) as [[|i l] o]; cbn [fst]; split.
  - discriminate.
  - intros [<- H]. contradiction H; reflexivity.
  - intros H; inversion H; split; [reflexivity | discriminate].
  - intros [<- _]. reflexivity.
Qed.

(** A successful parse against an object schema: the input is an object and
    the data is the object made of the outputs of the shape. *)
Lemma safeParse_object sh v data :
  safeParse is_email (z_object sh) v = Success data ->
  exists props,
    v = Some (JObj props) /\
    fst (parse_shape is_email [] props sh) = [] /\
    data = Some (JObj (snd (parse_shape is_email [] props sh))).
Proof.
  intros H. apply safeParse_success in H.
  destruct v as [[| | | | |props]|]; try discriminate H.
  rewrite parse_object_shape in H. inversion H as [[H1 H2]].
  exists props. rewrite H1. auto.
Qed.

(** An input that is not an object fails an object schema. *)
Lemma safeParse_not_object sh v :
  (forall props, v <> Some (JObj props)) ->
  safeParse is_email (z_object sh) v = Failure [mkIssue invalid_type []].
Proof.
  intros H. destruct v as [[| | | | |props]|]; try reflexivity.
  exfalso. apply (H props). reflexivity.
Qed.

(** What a string schema accepts. *)
Lemma parse_string_clean checks p v :
  fst (parse is_email (z_string checks) p v) = [] ->
  exists s, v = Some (JStr s) /\
            flat_map (run_check is_email p s) checks = [] /\
            snd (parse is_email (z_string checks) p v) = Some (JStr s).
Proof.
  destruct v as [[| | |s| |]|]; try discriminate. cbn [parse fst snd].
  intros H. exists s. auto.
Qed.

Lemma check_min1 p s :
  flat_map (run_check is_email p s) [min 1] = [] -> s <> "".
Proof.
  destruct s; [discriminate | intros _; discriminate].
Qed.

Lemma check_email p s :
  flat_map (run_check is_email p s) [email] = [] -> is_email s = true.
Proof.
  cbn [flat_map run_check]. destruct (is_email s); [reflexivity | discriminate].
Qed.

(** The elements of an array that raised no issue, against their outputs, when
    every clean element has an output related to it by [R]. *)
Lemma parse_items_clean element (R : json -> json -> Prop) p :
  (forall q x, fst (parse is_email element q (Some x)) = [] ->
               exists y, snd (parse is_email element q (Some x)) = Some y /\ R x y) ->
  forall items i,
    fst (parse_items is_email element p i items) = [] ->
    Forall2 R items (snd (parse_items is_email element p i items)).
Proof.
  intros Helem. induction items as [|x rest IH]; intros i Hclean.
  - constructor.
  - rewrite parse_items_cons in *. cbn [fst snd] in *.
    apply app_eq_nil in Hclean. destruct Hclean as [H1 H2].
    destruct (Helem _ _ H1) as [y [Hy HR]]. rewrite Hy.
    constructor; [exact HR | apply IH; exact H2].
Qed.

End ZodFacts.

Section ZodShapes.

Variable is_email : string -> bool.

Lemma parse_array_clean element p v :
  fst (parse is_email (z_array element) p v) = [] ->
  exists items,
    v = Some (JArr items) /\
    fst (parse_items is_email element p 0 items) = [] /\
    snd (parse is_email (z_array element) p v) =
      Some (JArr (snd (parse_items is_email element p 0 items))).
Proof.
  destruct v as [[| | | |items|]|]; try discriminate.
  rewrite parse_array_items. cbn [fst snd]. intros H. exists items. auto.
Qed.

Lemma parse_object_clean sh p v :
  fst (parse is_email (z_object sh) p v) = [] ->
  exists props,
    v = Some (JObj props) /\
    fst (parse_shape is_email p props sh) = [] /\
    snd (parse is_email (z_object sh) p v) =
      Some (JObj (snd (parse_shape is_email p props sh))).
Proof.
  destruct v as [[| | | | |props]|]; try discriminate.
  rewrite parse_object_shape. cbn [fst snd]. intros H. exists props. auto.
Qed.

(** An array of strings that raised no issue is returned as it is. *)
Lemma parse_strings_clean checks p v :
  fst (parse is_email (z_array (z_string checks)) p v) = [] ->
  exists l, snd (parse is_email (z_array (z_string checks)) p v) =
              Some (JArr (map JStr l)) /\ v = Some (JArr (map JStr l)).
Proof.
  intros H. destruct (parse_array_clean _ _ _ H) as [items [-> [Hclean ->]]].
  clear H. revert Hclean. generalize 0.
  induction items as [|x rest IH]; intros i Hclean.
  - exists []. split; reflexivity.
  - rewrite parse_items_cons in *. cbn [fst snd] in *.
    apply app_eq_nil in Hclean. destruct Hclean as [H1 H2].
    destruct (parse_string_clean _ _ _ _ H1) as [s [Hx [_ Hs]]].
    inversion Hx; subst x. rewrite Hs.
    destruct (IH _ H2) as [l [Hl Hl']].
    exists (s :: l). cbn [map]. split; congruence.
Qed.

(** A field that raises an issue makes its shape raise one. *)
Lemma parse_shape_dirty p props sh k sk :
  In (k, sk) sh ->
  fst (parse is_email sk (p ++ [PKey k])%list (lookup k props)) <> [] ->
  fst (parse_shape is_email p props sh) <> [].
Proof.
  intros Hin Hdirty Hclean. apply Hdirty.
  apply parse_shape_clean in Hclean. rewrite Forall_forall in Hclean.
  apply (Hclean (k, sk) Hin).
Qed.

(** An element that raises an issue wherever it stands makes its array raise
    one. *)
Lemma parse_items_dirty element p x items :
  In x items ->
  (forall q, fst (parse is_email element q (Some x)) <> []) ->
  forall i, fst (parse_items is_email element p i items) <> [].
Proof.
  intros Hin Hdirty. induction items as [|y rest IH]; intros i Hclean.
  - contradiction.
  - rewrite parse_items_cons in Hclean. cbn [fst snd] in Hclean.
    apply app_eq_nil in Hclean. destruct Hclean as [H1 H2].
    destruct Hin as [-> | Hin].
    + apply (Hdirty _ H1).
    + apply (IH Hin _ H2).
Qed.

(** A value that lacks a required field raises an issue, at any depth and
    under any path. *)
Lemma lacks_dirty s v :
  lacks s v -> forall p, fst (parse is_email s p (Some v)) <> [].
Proof.
  induction 1 as [shape props k sk Hin Hreq Hnone
                 | shape props k sk v Hin Hsome _ IH
                 | element items v Hin _ IH
                 | inner v _ IH]; intros p.
  - rewrite parse_object_shape. cbn [fst].
    apply (parse_shape_dirty p props shape k sk Hin).
    rewrite Hnone, (parse_required_undefined _ _ _ Hreq). discriminate.
  - rewrite parse_object_shape. cbn [fst].
    apply (parse_shape_dirty p props shape k sk Hin).
    rewrite Hsome. apply IH.
  - rewrite parse_array_items. cbn [fst].
    apply (parse_items_dirty element p v items Hin IH).
  - cbn [parse]. apply IH.
Qed.

End ZodShapes.

(** ** The two schemas *)

Lemma NoDup_by_nodup (l : list string) : nodup string_dec l = l -> NoDup l.
Proof. intros <-. apply NoDup_nodup. Qed.

Ltac pick_field := cbn; repeat first [left; reflexivity | right].

Section SchemaFacts.

Variable is_email : string -> bool.

Lemma metadata_keys_distinct :
  NoDup (map fst (shape_of Schema.insertMeetingMetadataSchema)).
Proof. apply NoDup_by_nodup. vm_compute. reflexivity. Qed.

(** An action item that passed. *)
Lemma action_item_clean sh q x :
  sh = [("id", z_string [min 1]); ("description", z_string []);
        ("assignee", z_string []); ("deadline", z_string [min 1]);
        ("status", z_enum ["pending"; "in_progress"; "completed"])] ->
  fst (parse is_email (z_object sh) q (Some x)) = [] ->
  exists y, snd (parse is_email (z_object sh) q (Some x)) = Some y /\
            exists d, field (Some y) "description" = Some (JStr d).
Proof.
  intros Hsh Hclean.
  destruct (parse_object_clean _ _ _ _ Hclean) as [props [Hx [Hfields Hout]]].
  rewrite Hout. eexists. split; [reflexivity|].
  cbn [field get_prop].
  rewrite (parse_shape_lookup is_email q props sh "description" (z_string [])).
  - apply parse_shape_clean in Hfields. rewrite Forall_forall in Hfields.
    specialize (Hfields ("description", z_string [])). cbn [fst snd] in Hfields.
    destruct (parse_string_clean is_email _ _ _ (Hfields ltac:(subst sh; pick_field)))
      as [d [_ [_ Hd]]].
    exists d. exact Hd.
  - subst sh. apply NoDup_by_nodup. vm_compute. reflexivity.
  - subst sh. pick_field.
Qed.

(** A response that passed the strict schema: it was an object, the data is
    the object of the declared keys, in the declared order, and it shows a
    view. *)
Lemma metadata_valid v data :
  safeParse is_email Schema.insertMeetingMetadataSchema v = Success data ->
  exists props out view,
    v = Some (JObj props) /\
    data = Some (JObj out) /\
    out = snd (parse_shape is_email [] props
                 (shape_of Schema.insertMeetingMetadataSchema)) /\
    keys out = map fst (shape_of Schema.insertMeetingMetadataSchema) /\
    shows data view.
Proof.
  intros H. apply safeParse_object in H. destruct H as [props [-> [Hclean ->]]].
  set (sh := shape_of Schema.insertMeetingMetadataSchema).
  change (fst (parse_shape is_email [] props sh) = []) in Hclean.
  change (parse_shape is_email [] props _) with (parse_shape is_email [] props sh).
  assert (Hkeys : keys (snd (parse_shape is_email [] props sh)) = map fst sh).
  { apply parse_shape_keys; [reflexivity | exact Hclean]. }
  pose proof Hclean as Hall. apply parse_shape_clean in Hall.
  rewrite Forall_forall in Hall.
  pose proof (fun k sk Hin => parse_shape_lookup is_email [] props sh k sk
                                metadata_keys_distinct Hin) as Hlook.
  (* title *)
  pose proof (Hall ("title", z_string []) ltac:(pick_field)) as Ht.
  cbn [fst snd] in Ht.
  destruct (parse_string_clean is_email _ _ _ Ht) as [t [_ [_ Ht']]].
  (* description *)
  pose proof (Hall ("description", z_string []) ltac:(pick_field)) as Hd.
  cbn [fst snd] in Hd.
  destruct (parse_string_clean is_email _ _ _ Hd) as [d [_ [_ Hd']]].
  (* takeaways *)
  pose proof (Hall ("takeaways", z_array (z_string [])) ltac:(pick_field)) as Hk.
  cbn [fst snd] in Hk.
  destruct (parse_strings_clean is_email _ _ _ Hk) as [ks [Hk' _]].
  (* action items *)
  remember [("id", z_string [min 1]); ("description", z_string []);
            ("assignee", z_string []); ("deadline", z_string [min 1]);
            ("status", z_enum ["pending"; "in_progress"; "completed"])] as ash eqn:Hash.
  pose proof (Hall ("actionItems", z_array (z_object ash)) ltac:(subst ash; pick_field)) as Ha.
  cbn [fst snd] in Ha.
  destruct (parse_array_clean is_email _ _ _ Ha) as [items [_ [Hitems Ha']]].
  pose proof (parse_items_clean is_email (z_object ash)
                (fun _ y => exists dd, field (Some y) "description" = Some (JStr dd))
                ([] ++ [PKey "actionItems"])%list
                (fun q x Hc => action_item_clean ash q x Hash Hc)
                items 0 Hitems) as Hfor.
  assert (exists ds, Forall2 (fun item dd => field (Some item) "description" = Some (JStr dd))
                       (snd (parse_items is_email (z_object ash)
                               ([] ++ [PKey "actionItems"])%list 0 items)) ds) as [ds Hds].
  { clear - Hfor. induction Hfor as [|x y l l' [dd Hdd] _ [ds IH]].
    - exists []. constructor.
    - exists (dd :: ds). constructor; assumption. }
  exists props, (snd (parse_shape is_email [] props sh)),
    {| view_title := t; view_description := d;
       view_takeaways := ks; view_actionItems := ds |}.
  repeat split; try assumption.
  - cbn [field get_prop view_title].
    rewrite (Hlook "title" (z_string []) ltac:(pick_field)). exact Ht'.
  - cbn [field get_prop view_description].
    rewrite (Hlook "description" (z_string []) ltac:(pick_field)). exact Hd'.
  - cbn [field get_prop view_takeaways].
    rewrite (Hlook "takeaways" (z_array (z_string [])) ltac:(pick_field)). exact Hk'.
  - eexists. cbn [field get_prop view_actionItems]. split.
    + rewrite (Hlook "actionItems" (z_array (z_object ash)) ltac:(subst ash; pick_field)).
      exact Ha'.
    + exact Hds.
Qed.

(** A transcript block that passed. *)
Lemma transcript_block_clean q x :
  fst (parse is_email Schema.TranscriptBlockSchema q (Some x)) = [] ->
  exists y, snd (parse is_email Schema.TranscriptBlockSchema q (Some x)) = Some y /\
            exists b, y = block_json b.
Proof.
  intros Hclean. unfold Schema.TranscriptBlockSchema in *.
  destruct (parse_object_clean _ _ _ _ Hclean) as [props [Hx [Hfields Hout]]].
  rewrite Hout. eexists. split; [reflexivity|].
  apply parse_shape_clean in Hfields.
  inversion Hfields as [|? ? H1 Hf1]; subst. inversion Hf1 as [|? ? H2 Hf2]; subst.
  inversion Hf2 as [|? ? H3 _]; subst. cbn [fst snd] in *.
  destruct (parse_string_clean _ _ _ _ H1) as [a [_ [_ Ha]]].
  destruct (parse_string_clean _ _ _ _ H2) as [b [_ [_ Hb]]].
  destruct (parse_string_clean _ _ _ _ H3) as [c [_ [_ Hc]]].
  rewrite !parse_shape_cons. cbn [fst snd parse_shape]. rewrite Ha, Hb, Hc.
  exists {| personName := a; timestamp := b; text := c |}. reflexivity.
Qed.

(** A request that passed: the body was an object, its [id], [email] and
    [transcript] are what the data holds, and the data is a [Request]. *)
Lemma request_valid body data :
  safeParse is_email Schema.requestSchema body = Success data ->
  exists props r,
    body = Some (JObj props) /\
    data = Some (request_json r) /\
    lookup "id" props = Some (JStr (request_id r)) /\
    lookup "email" props = Some (JStr (request_email r)) /\
    is_email (request_email r) = true /\
    request_id r <> "" /\
    snd (parse is_email Schema.TranscriptSchema [PKey "transcript"]
           (lookup "transcript" props)) = Some (transcript_json (transcript r)).
Proof.
  intros H. apply safeParse_object in H. destruct H as [props [-> [Hclean ->]]].
  pose proof Hclean as Hall. apply parse_shape_clean in Hall.
  inversion Hall as [|? ? H1 Hf1]; subst. inversion Hf1 as [|? ? H2 Hf2]; subst.
  inversion Hf2 as [|? ? H3 Hf3]; subst. inversion Hf3 as [|? ? H4 Hf4]; subst.
  inversion Hf4 as [|? ? H5 Hf5]; subst. inversion Hf5 as [|? ? H6 _]; subst.
  cbn [fst snd app] in *.
  destruct (parse_string_clean _ _ _ _ H1) as [i [Hi [Hi1 Hi2]]].
  destruct (parse_string_clean _ _ _ _ H2) as [e [He [He1 He2]]].
  destruct (parse_string_clean _ _ _ _ H3) as [st [_ [_ Hst]]].
  destruct (parse_string_clean _ _ _ _ H4) as [et [_ [_ Het]]].
  destruct (parse_strings_clean _ _ _ _ H5) as [ps [Hps _]].
  destruct (parse_array_clean _ _ _ _ H6) as [items [_ [Hitems Htr]]].
  pose proof (parse_items_clean is_email Schema.TranscriptBlockSchema
                (fun _ y => exists b, y = block_json b) [PKey "transcript"]
                transcript_block_clean items 0 Hitems) as Hfor.
  assert (exists bs, snd (parse_items is_email Schema.TranscriptBlockSchema
                            [PKey "transcript"] 0 items) = map block_json bs)
    as [bs Hbs].
  { clear - Hfor. induction Hfor as [|x y l l' [b Hb] _ [bs IH]].
    - exists []. reflexivity.
    - exists (b :: bs). cbn [map]. congruence. }
  exists props,
    {| request_id := i; request_email := e; startTime := st; endTime := et;
       participants := ps; transcript := bs |}.
  cbn [request_id request_email transcript].
  repeat split.
  - rewrite !parse_shape_cons. cbn [fst snd parse_shape app].
    rewrite Hi2, He2, Hst, Het, Hps.
    unfold Schema.TranscriptSchema in *. rewrite Htr, Hbs. reflexivity.
  - exact Hi.
  - exact He.
  - eapply check_email. exact He1.
  - eapply check_min1. exact Hi1.
  - unfold Schema.TranscriptSchema in *. rewrite Htr, Hbs. reflexivity.
Qed.

End SchemaFacts.

(** ** The renderer *)

Lemma field_get_prop o k v :
  field o k = Some v -> get_prop o k = inr (Some v).
Proof.
  unfold field. destruct (get_prop o k) as [e|[w|]]; intros H;
    try discriminate; inversion H; reflexivity.
Qed.

Lemma update_ext i (f g : PptxGenJS.Slide -> PptxGenJS.Slide) pptx :
  (forall s, f s = g s) -> PptxGenJS.update i f pptx = PptxGenJS.update i g pptx.
Proof.
  intros H. revert i. induction pptx as [|s rest IH]; intros [|i]; cbn;
    try reflexivity; [rewrite H | rewrite IH]; reflexivity.
Qed.

Lemma update_update i (f g : PptxGenJS.Slide -> PptxGenJS.Slide) pptx :
  PptxGenJS.update i g (PptxGenJS.update i f pptx) =
  PptxGenJS.update i (fun s => g (f s)) pptx.
Proof.
  revert i. induction pptx as [|s rest IH]; intros [|i]; cbn;
    try reflexivity. rewrite IH. reflexivity.
Qed.

Lemma update_same i (f : PptxGenJS.Slide -> PptxGenJS.Slide) pptx :
  (forall s, f s = s) -> PptxGenJS.update i f pptx = pptx.
Proof.
  intros H. revert i. induction pptx as [|s rest IH]; intros [|i]; cbn;
    try reflexivity; [rewrite H | rewrite IH]; reflexivity.
Qed.

Section RendererFacts.

Variable rt : Runtime.

Lemma bullet_string slide d index pptx :
  bullet rt slide (Some (JStr d)) index pptx =
  PptxGenJS.update slide (fun s => (s ++ [bullet_box index d])%list) pptx.
Proof. reflexivity. Qed.

(** The loop over the takeaways adds one bulleted line per entry, in order. *)
Lemma forEach_takeaways slide ks :
  forall i pptx,
    forEach_from
      (fun point index pptx => inr (bullet rt slide (Some point) index pptx))
      (map JStr ks) i pptx =
    inr (PptxGenJS.update slide (fun s => (s ++ bullets_from i ks)%list) pptx).
Proof.
  induction ks as [|k rest IH]; intros i pptx.
  - cbn [map forEach_from bullets_from]. rewrite update_same; [reflexivity|].
    intros s. apply app_nil_r.
  - cbn [map forEach_from]. rewrite IH, bullet_string, update_update.
    f_equal. apply update_ext. intros s. cbn [bullets_from].
    rewrite <- app_assoc. reflexivity.
Qed.

(** The loop over the action items adds one bulleted line per description, in
    order. *)
Lemma forEach_actionItems slide items ds :
  Forall2 (fun item d => field (Some item) "description" = Some (JStr d)) items ds ->
  forall i pptx,
    forEach_from
      (fun item index pptx =>
         match get_prop (Some item) "description" with
         | inl e => inl e
         | inr description => inr (bullet rt slide description index pptx)
         end)
      items i pptx =
    inr (PptxGenJS.update slide (fun s => (s ++ bullets_from i ds)%list) pptx).
Proof.
  induction 1 as [|item d items ds Hd _ IH]; intros i pptx.
  - cbn [forEach_from bullets_from]. rewrite update_same; [reflexivity|].
    intros s. apply app_nil_r.
  - cbn [forEach_from]. rewrite (field_get_prop _ _ _ Hd).
    rewrite IH, bullet_string, update_update.
    f_equal. apply update_ext. intros s. cbn [bullets_from].
    rewrite <- app_assoc. reflexivity.
Qed.

(** The slides built for data that shows a view. *)
Lemma presentation_shows data v :
  shows data v -> presentation rt data = inr (deck v).
Proof.
  intros [Ht [Hd [Hk [items [Ha Hitems]]]]].
  unfold presentation.
  rewrite (field_get_prop _ _ _ Ht), (field_get_prop _ _ _ Hd),
    (field_get_prop _ _ _ Hk), (field_get_prop _ _ _ Ha).
  cbn [PptxGenJS.addSlide PptxGenJS.new PptxGenJS.addText PptxGenJS.update
       app length forEach].
  rewrite forEach_takeaways.
  cbn [PptxGenJS.addSlide PptxGenJS.new PptxGenJS.addText PptxGenJS.update
       app length forEach].
  rewrite (forEach_actionItems _ _ _ Hitems).
  reflexivity.
Qed.

End RendererFacts.

(** ** The handler's monad *)

Lemma extends_ret {A : Type} (a : A) : extends (ret a).
Proof. intros tr. exists []. cbn. rewrite app_nil_r. reflexivity. Qed.

Lemma extends_throw {A : Type} (e : exn) : extends (@throw A e).
Proof. intros tr. exists []. cbn. rewrite app_nil_r. reflexivity. Qed.

Lemma extends_lift {A : Type} (r : exn + A) : extends (lift r).
Proof. destruct r; [apply extends_throw | apply extends_ret]. Qed.

Lemma extends_call {A : Type} ev (r : exn + A) : extends (call ev r).
Proof. intros tr. exists [ev]. unfold call. destruct r; reflexivity. Qed.

Lemma extends_bind {A B : Type} (m : IO A) (k : A -> IO B) :
  extends m -> (forall a, extends (k a)) -> extends (bind m k).
Proof.
  intros Hm Hk tr. unfold bind. destruct (Hm tr) as [more Hmore].
  destruct (m tr) as [tr' [a|e]]; cbn [fst] in Hmore; subst tr'.
  - destruct (Hk a (tr ++ more)%list) as [more' Hmore'].
    exists (more ++ more')%list. rewrite Hmore'. symmetry. apply app_assoc.
  - exists more. reflexivity.
Qed.

Lemma extends_if {A : Type} (b : bool) (m1 m2 : IO A) :
  extends m1 -> extends m2 -> extends (if b then m1 else m2).
Proof. destruct b; auto. Qed.

Lemma bind_lift_inr {A B : Type} (a : A) (k : A -> IO B) tr :
  bind (lift (inr a)) k tr = k a tr.
Proof. reflexivity. Qed.

Lemma bind_call {A B : Type} ev (r : exn + A) (k : A -> IO B) tr :
  bind (call ev r) k tr =
  match r with
  | inl e => ((tr ++ [ev])%list, Throw e)
  | inr a => k a (tr ++ [ev])%list
  end.
Proof. unfold bind, call. destruct r; reflexivity. Qed.

Create HintDb io.
#[export] Hint Resolve extends_ret extends_throw extends_lift extends_call
  extends_bind extends_if : io.

(** ** The object sent to the metadata store *)

Lemma not_mem k l : mem k l = false -> ~ In k l.
Proof.
  unfold mem. intros H Hin.
  assert (existsb (String.eqb k) l = true) as Ht.
  { apply existsb_exists. exists k. split; [exact Hin | apply String.eqb_refl]. }
  congruence.
Qed.





(** ** The pipeline *)

(** A trace that opens with the question and one upsert, and goes on with no
    other upsert, holds exactly one. *)
Lemma upserts_once url q init rest :
  (exists s, body init = Text s) ->
  (forall ev, In ev rest -> is_upsert url ev = false) ->
  upserts url (Ask q :: Fetch url (Some init) :: rest) = 1.
Proof.
  intros [s Hs] Hrest. unfold upserts. cbn [filter is_upsert].
  rewrite String.eqb_refl, Hs. cbn [andb List.length]. f_equal.
  induction rest as [|ev rest IH]; [reflexivity|].
  cbn [filter]. rewrite (Hrest ev (or_introl eq_refl)).
  apply IH. intros ev' Hin. apply Hrest. right. exact Hin.
Qed.

Lemma upload_is_no_upsert url u blob :
  is_upsert url (Fetch u (Some (upload_put blob))) = false.
Proof. cbn. apply andb_false_r. Qed.

Ltac evaluate :=
  unfold asked, stored, signing, uploaded, parse_json in *;
  cbv beta iota zeta delta
    [run bind lift call ret throw get_prop field request_json lookup
     String.eqb Ascii.eqb Bool.eqb app negb fst snd] in *.

Ltac unfold_handler :=
  unfold handleSummary, handleSummaryWith, generatePresentation,
    getPresignedUploadUrl.

Section PipelineFacts.

Variable rt : Runtime.
Variable world : World.

Lemma valid_email_of_valid_request body data :
  safeParse (zod_email rt) Schema.requestSchema body = Success data ->
  valid_email rt (field body "email") = true.
Proof.
  intros H. apply request_valid in H.
  destruct H as [props [r [-> [_ [_ [He [Hv _]]]]]]].
  cbn [field get_prop]. rewrite He. exact Hv.
Qed.

(** C4. A body that fails the request schema, and so every body whose [email]
    is missing or is not a valid email address, is answered by
    [{success: false, error: "Invalid request"}] with no call made: the
    chatbot is not asked and nothing is fetched. *)
Theorem invalid_request_rejected body :
  (exists e, safeParse (zod_email rt) Schema.requestSchema body = Failure e) \/
  valid_email rt (field body "email") = false ->
  run (handleSummary rt world body) =
    ([], Normal {| success := false; error := EMessage "Invalid request" |}).
Proof.
  intros H.
  assert (exists e, safeParse (zod_email rt) Schema.requestSchema body = Failure e)
    as [e He].
  { destruct H as [H | H]; [exact H|].
    destruct (safeParse (zod_email rt) Schema.requestSchema body) as [data|e] eqn:Hp.
    - apply valid_email_of_valid_request in Hp. congruence.
    - exists e. reflexivity. }
  unfold_handler. rewrite He. reflexivity.
Qed.

(** C1 (what the code does). When the chatbot's answer is not JSON,
    [JSON.parse] throws inside the handler and nothing catches it: the run
    ends in a thrown [SyntaxError] after the one call to the chatbot. No
    [{success: false}] is returned; the metadata store is not called. *)
Theorem non_json_response_throws body data answer :
  safeParse (zod_email rt) Schema.requestSchema body = Success data ->
  chatbot_ask world (asked rt data) = inr answer ->
  JSON_parse rt answer = None ->
  run (handleSummary rt world body) = ([Ask (asked rt data)], Throw SyntaxError).
Proof.
  intros Hreq Hask Hjson.
  destruct (request_valid _ _ _ Hreq) as [props [r [-> [-> _]]]].
  unfold_handler. rewrite Hreq. evaluate. rewrite Hask. evaluate.
  rewrite Hjson. reflexivity.
Qed.

(** C2. An answer that is JSON but lacks a field the strict shape requires,
    at the top or inside a nested object or array, fails the output
    validation: the handler returns [{success: false}] with the [ZodError],
    and the only call made was the one to the chatbot. When the missing field
    is a top-level one, the error reports it as [invalid_type] at that key. *)
Theorem missing_field_rejected body data answer parsed :
  safeParse (zod_email rt) Schema.requestSchema body = Success data ->
  chatbot_ask world (asked rt data) = inr answer ->
  JSON_parse rt answer = Some parsed ->
  lacks Schema.insertMeetingMetadataSchema parsed ->
  exists e,
    e <> [] /\
    safeParse (zod_email rt) Schema.insertMeetingMetadataSchema (Some parsed)
      = Failure e /\
    (forall k,
       In k (map fst (shape_of Schema.insertMeetingMetadataSchema)) ->
       field (Some parsed) k = None ->
       In (mkIssue invalid_type [PKey k]) e) /\
    run (handleSummary rt world body) =
      ([Ask (asked rt data)], Normal {| success := false; error := EZod e |}).
Proof.
  intros Hreq Hask Hjson Hlacks.
  pose proof (lacks_dirty (zod_email rt) _ _ Hlacks []) as Hdirty.
  set (e := fst (parse (zod_email rt) Schema.insertMeetingMetadataSchema []
                   (Some parsed))) in *.
  assert (safeParse (zod_email rt) Schema.insertMeetingMetadataSchema
            (Some parsed) = Failure e) as Hfail.
  { apply safeParse_failure. split; [reflexivity | exact Hdirty]. }
  exists e. split; [exact Hdirty|]. split; [exact Hfail|]. split.
  - intros k Hk Hmissing.
    destruct parsed as [| | | | |props]; try (inversion Hlacks; fail).
    cbn [field get_prop] in Hmissing.
    apply in_map_iff in Hk. destruct Hk as [[k' sk] [Hfst Hin]].
    cbn [fst] in Hfst. subst k'.
    assert (required sk = true) as Hsk.
    { assert (forallb (fun ks => required (snd ks))
                (shape_of Schema.insertMeetingMetadataSchema) = true) as Hall
        by reflexivity.
      rewrite forallb_forall in Hall. apply (Hall _ Hin). }
    subst e. unfold Schema.insertMeetingMetadataSchema.
    rewrite parse_object_shape. cbn [fst].
    apply (parse_shape_issue (zod_email rt) [] props _ k sk _ Hin).
    rewrite Hmissing, (parse_required_undefined _ _ _ Hsk). left. reflexivity.
  - destruct (request_valid _ _ _ Hreq) as [props [r [-> [-> _]]]].
    unfold_handler. rewrite Hreq. evaluate. rewrite Hask. evaluate.
    rewrite Hjson. evaluate. rewrite Hfail. reflexivity.
Qed.

(** C5. When the metadata store answers the upsert with a non-success status,
    the handler returns
    [{success: false, error: "Failed to update meeting metadata"}] and the run
    has made two calls only, to the chatbot and to the store: [pptx.write()] is
    not called, no presigned URL is asked for, nothing is uploaded. *)
Theorem store_failure_stops body data answer parsed mdata res :
  safeParse (zod_email rt) Schema.requestSchema body = Success data ->
  chatbot_ask world (asked rt data) = inr answer ->
  JSON_parse rt answer = Some parsed ->
  safeParse (zod_email rt) Schema.insertMeetingMetadataSchema (Some parsed)
    = Success mdata ->
  fetch world (meeting_url rt world) (Some (stored rt data mdata)) = inr res ->
  ok res = false ->
  run (handleSummary rt world body) =
    ([Ask (asked rt data);
      Fetch (meeting_url rt world) (Some (stored rt data mdata))],
     Normal {| success := false;
               error := EMessage "Failed to update meeting metadata" |}).
Proof.
  intros Hreq Hask Hjson Hmeta Hput Hok.
  destruct (request_valid _ _ _ Hreq) as [props [r [-> [-> _]]]].
  unfold_handler. rewrite Hreq. evaluate. rewrite Hask. evaluate.
  rewrite Hjson. evaluate. rewrite Hmeta. evaluate. rewrite Hput. evaluate.
  rewrite Hok. reflexivity.
Qed.

(** The renderer does not throw on metadata that passed the strict schema. *)
Lemma presentation_of_valid v mdata :
  safeParse (zod_email rt) Schema.insertMeetingMetadataSchema v = Success mdata ->
  presentation rt mdata = inr (slides rt mdata).
Proof.
  intros H. destruct (metadata_valid _ _ _ H) as [props [out [view [_ [_ [_ [_ Hs]]]]]]].
  unfold slides. rewrite (presentation_shows rt _ _ Hs). reflexivity.
Qed.

(** C3 (amended). With every stage up to persistence passed: when the
    presigned-URL service answers with a non-success status, the handler
    throws [Error("Failed to get pre-signed upload URL")] and no transfer is
    attempted; when it answers with a URL and the transfer is answered with a
    non-success status, the handler returns
    [{success: false, error: "Failed to upload presentation"}]. In both runs
    the metadata store was called exactly once, before the file was written
    and the presigned-URL service asked. *)
Theorem upload_failure_reported body data answer parsed mdata res signed :
  safeParse (zod_email rt) Schema.requestSchema body = Success data ->
  chatbot_ask world (asked rt data) = inr answer ->
  JSON_parse rt answer = Some parsed ->
  safeParse (zod_email rt) Schema.insertMeetingMetadataSchema (Some parsed)
    = Success mdata ->
  fetch world (meeting_url rt world) (Some (stored rt data mdata)) = inr res ->
  ok res = true ->
  fetch world (signing rt world data) None = inr signed ->
  (ok signed = false ->
   exists tr,
     run (handleSummary rt world body) =
       (tr, Throw (Error "Failed to get pre-signed upload URL")) /\
     tr = [Ask (asked rt data);
           Fetch (meeting_url rt world) (Some (stored rt data mdata));
           WriteFile (slides rt mdata);
           Fetch (signing rt world data) None] /\
     upserts (meeting_url rt world) tr = 1)
  /\
  (forall content uploadUrl uploadRes,
     ok signed = true ->
     response_json signed = inr content ->
     get_prop (Some content) "url" = inr uploadUrl ->
     fetch world (interpolate (Number_toString rt) uploadUrl)
       (Some (uploaded rt world mdata)) = inr uploadRes ->
     ok uploadRes = false ->
     exists tr,
       run (handleSummary rt world body) =
         (tr, Normal {| success := false;
                        error := EMessage "Failed to upload presentation" |}) /\
       tr = [Ask (asked rt data);
             Fetch (meeting_url rt world) (Some (stored rt data mdata));
             WriteFile (slides rt mdata);
             Fetch (signing rt world data) None;
             Fetch (interpolate (Number_toString rt) uploadUrl)
               (Some (uploaded rt world mdata))] /\
       upserts (meeting_url rt world) tr = 1).
Proof.
  intros Hreq Hask Hjson Hmeta Hput Hok Hsign.
  pose proof (presentation_of_valid _ _ Hmeta) as Hpres.
  assert (forall rest,
             (forall ev, In ev rest -> is_upsert (meeting_url rt world) ev = false) ->
             upserts (meeting_url rt world)
               (Ask (asked rt data)
                  :: Fetch (meeting_url rt world) (Some (stored rt data mdata))
                  :: rest) = 1) as Honce.
  { intros rest Hrest. apply upserts_once; [eexists; reflexivity | exact Hrest]. }
  destruct (request_valid _ _ _ Hreq) as [props [r [-> [-> _]]]].
  split.
  - intros Hno. eexists. split; [|split; [reflexivity|]].
    + unfold_handler. rewrite Hreq. evaluate. rewrite Hask. evaluate.
      rewrite Hjson. evaluate. rewrite Hmeta. evaluate. rewrite Hput. evaluate.
      rewrite Hok. evaluate. rewrite Hpres. evaluate. rewrite Hsign. evaluate.
      rewrite Hno. reflexivity.
    + apply Honce. intros ev [<- | [<- | []]]; reflexivity.
  - intros content uploadUrl uploadRes Hyes Hcontent Hurl Hup Hrefused.
    eexists. split; [|split; [reflexivity|]].
    + unfold_handler. rewrite Hreq. evaluate. rewrite Hask. evaluate.
      rewrite Hjson. evaluate. rewrite Hmeta. evaluate. rewrite Hput. evaluate.
      rewrite Hok. evaluate. rewrite Hpres. evaluate. rewrite Hsign. evaluate.
      rewrite Hyes. evaluate. rewrite Hcontent. evaluate.
      change (match content with
              | JNull => inl TypeError
              | JObj props => inr (lookup "url" props)
              | _ => inr None
              end) with (get_prop (Some content) "url").
      rewrite Hurl. evaluate. rewrite Hup. evaluate. rewrite Hrefused. reflexivity.
    + apply Honce. intros ev [<- | [<- | [<- | []]]]; try reflexivity.
      apply upload_is_no_upsert.
Qed.

(** C7. When the request validates, the answer parses and passes the strict
    schema, and the metadata store, the presigned-URL service and the upload
    target all answer with success, the handler returns
    [{success: true, error: null}], after exactly five calls in this order:
    chatbot, metadata store, [pptx.write()], presigned-URL service, upload
    target. *)
Theorem pipeline_succeeds body data answer parsed mdata res signed content
    uploadUrl uploadRes :
  safeParse (zod_email rt) Schema.requestSchema body = Success data ->
  chatbot_ask world (asked rt data) = inr answer ->
  JSON_parse rt answer = Some parsed ->
  safeParse (zod_email rt) Schema.insertMeetingMetadataSchema (Some parsed)
    = Success mdata ->
  fetch world (meeting_url rt world) (Some (stored rt data mdata)) = inr res ->
  ok res = true ->
  fetch world (signing rt world data) None = inr signed ->
  ok signed = true ->
  response_json signed = inr content ->
  get_prop (Some content) "url" = inr uploadUrl ->
  fetch world (interpolate (Number_toString rt) uploadUrl)
    (Some (uploaded rt world mdata)) = inr uploadRes ->
  ok uploadRes = true ->
  run (handleSummary rt world body) =
    ([Ask (asked rt data);
      Fetch (meeting_url rt world) (Some (stored rt data mdata));
      WriteFile (slides rt mdata);
      Fetch (signing rt world data) None;
      Fetch (interpolate (Number_toString rt) uploadUrl)
        (Some (uploaded rt world mdata))],
     Normal {| success := true; error := ENull |}).
Proof.
  intros Hreq Hask Hjson Hmeta Hput Hok Hsign Hyes Hcontent Hurl Hup Hdone.
  pose proof (presentation_of_valid _ _ Hmeta) as Hpres.
  destruct (request_valid _ _ _ Hreq) as [props [r [-> [-> _]]]].
  unfold_handler. rewrite Hreq. evaluate. rewrite Hask. evaluate.
  rewrite Hjson. evaluate. rewrite Hmeta. evaluate. rewrite Hput. evaluate.
  rewrite Hok. evaluate. rewrite Hpres. evaluate. rewrite Hsign. evaluate.
  rewrite Hyes. evaluate. rewrite Hcontent. evaluate.
  change (match content with
          | JNull => inl TypeError
          | JObj props => inr (lookup "url" props)
          | _ => inr None
          end) with (get_prop (Some content) "url").
  rewrite Hurl. evaluate. rewrite Hup. evaluate. rewrite Hdone. reflexivity.
Qed.


(** C10. Two bodies that both validate and agree on every property other than
    [startTime], [endTime] and [participants] give, in the same world, the
    same prompt, the same upsert, the same artifact name, and the same run:
    the same calls with the same arguments (the rendered file among them) and
    the same result. *)
Theorem unused_request_fields body1 body2 data1 data2 :
  safeParse (zod_email rt) Schema.requestSchema body1 = Success data1 ->
  safeParse (zod_email rt) Schema.requestSchema body2 = Success data2 ->
  (forall k, k <> "startTime" -> k <> "endTime" -> k <> "participants" ->
             field body1 k = field body2 k) ->
  asked rt data1 = asked rt data2 /\
  (forall mdata, stored rt data1 mdata = stored rt data2 mdata) /\
  artifact rt (field data1 "id") = artifact rt (field data2 "id") /\
  run (handleSummary rt world body1) = run (handleSummary rt world body2).
Proof.
  intros H1 H2 Hsame.
  destruct (request_valid _ _ _ H1) as [props1 [r1 [-> [-> [Hid1 [Hem1 [_ [_ Ht1]]]]]]]].
  destruct (request_valid _ _ _ H2) as [props2 [r2 [-> [-> [Hid2 [Hem2 [_ [_ Ht2]]]]]]]].
  pose proof (Hsame "id" ltac:(discriminate) ltac:(discriminate) ltac:(discriminate)) as Eid.
  pose proof (Hsame "email" ltac:(discriminate) ltac:(discriminate) ltac:(discriminate)) as Eem.
  pose proof (Hsame "transcript" ltac:(discriminate) ltac:(discriminate) ltac:(discriminate)) as Etr.
  cbn [field get_prop] in Eid, Eem, Etr.
  rewrite Hid1, Hid2 in Eid. rewrite Hem1, Hem2 in Eem. rewrite Etr, Ht2 in Ht1.
  assert (request_id r1 = request_id r2) as Eid' by congruence.
  assert (request_email r1 = request_email r2) as Eem' by congruence.
  assert (transcript_json (transcript r1) = transcript_json (transcript r2))
    as Etr' by congruence.
  unfold_handler. rewrite H1, H2. evaluate.
  rewrite Eid', Eem', Etr'. repeat split; reflexivity.
Qed.

End PipelineFacts.

(** ** The prompt and the presentation *)

Lemma loop_is_map {A B : Type} (f : A -> B) (l : list A) :
  (fix each (l : list A) : list B :=
     match l with
     | [] => []
     | x :: rest => f x :: each rest
     end) l = map f l.
Proof. induction l as [|x rest IH]; [reflexivity | cbn; rewrite IH; reflexivity]. Qed.

Lemma serialize_array nts gap indent items :
  serialize nts gap indent (JArr items) =
  bracket gap indent "[" "]" (map (serialize nts gap (indent ++ gap)) items).
Proof.
  cbn [serialize]. rewrite (loop_is_map (serialize nts gap (indent ++ gap))).
  reflexivity.
Qed.



(** ** The transcript in the prompt *)


















(** C6. Metadata that passed the strict schema shows a title, a description,
    a list of takeaways and a list of action-item descriptions, and the
    renderer builds for it exactly four slides, in this order: the title; a
    summary heading and the description; a key-points heading and one bulleted
    line per takeaway, in order; an action-items heading and one bulleted line
    per action-item description, in order. The file returned is what
    the one call to [pptx.write()] makes of those slides. With no takeaways the third slide is
    the key-points heading alone. *)
Theorem presentation_has_four_slides (rt : Runtime) (world : World)
    (v data id : jsval) :
  safeParse (zod_email rt) Schema.insertMeetingMetadataSchema v = Success data ->
  exists view,
    shows data view /\
    presentation rt data = inr (deck view) /\
    List.length (deck view) = 4 /\
    (forall tr, generatePresentation rt world data id tr =
                ((tr ++ [WriteFile (deck view)])%list,
                 Normal (pptx_write world (deck view)))) /\
    (view_takeaways view = [] ->
     nth_error (deck view) 2 = Some [heading_box "Key Points"]).
Proof.
  intros H.
  destruct (metadata_valid _ _ _ H) as [props [out [view [_ [_ [_ [_ Hs]]]]]]].
  pose proof (presentation_shows rt _ _ Hs) as Hp.
  exists view. split; [exact Hs|]. split; [exact Hp|]. split; [reflexivity|].
  split.
  - intros tr. unfold generatePresentation. rewrite Hp. reflexivity.
  - intros Hnone. unfold deck. rewrite Hnone. reflexivity.
Qed.

(** ** The two schema modules compared *)

(** The partial metadata schema is the strict one with every top-level field
    wrapped in [.optional()]. *)
Lemma partial_is_optional_strict :
  PartialSchema.insertMeetingMetadataSchema =
  z_object (map (fun ks => (fst ks, z_optional (snd ks)))
              (shape_of Schema.insertMeetingMetadataSchema)).
Proof. reflexivity. Qed.

(** On a field that is present, [.optional()] changes nothing; so a shape that
    raised no issue with its fields required raises none, and gives the same
    output, with its fields optional. *)
Lemma optional_shape_agrees (is_email : string -> bool) p props sh :
  forallb (fun ks => required (snd ks)) sh = true ->
  fst (parse_shape is_email p props sh) = [] ->
  parse_shape is_email p props
    (map (fun ks => (fst ks, z_optional (snd ks))) sh) =
  parse_shape is_email p props sh.
Proof.
  induction sh as [|[k sk] rest IH]; intros Hreq Hclean.
  - reflexivity.
  - cbn [map fst snd]. rewrite !parse_shape_cons in *. cbn [fst snd] in *.
    cbn [forallb snd] in Hreq. apply andb_prop in Hreq. destruct Hreq as [Hk Hrest].
    apply app_eq_nil in Hclean. destruct Hclean as [H1 H2].
    rewrite (IH Hrest H2).
    destruct (lookup k props) as [x|] eqn:Hx.
    + reflexivity.
    + rewrite (parse_required_undefined _ _ _ Hk) in H1. discriminate H1.
Qed.

(** X20. Whatever the strict module accepts, the partial module accepts, with the
    same data. *)
Lemma partial_accepts_strict (is_email : string -> bool) v data :
  safeParse is_email Schema.insertMeetingMetadataSchema v = Success data ->
  safeParse is_email PartialSchema.insertMeetingMetadataSchema v = Success data.
Proof.
  intros H. apply safeParse_object in H. destruct H as [props [-> [Hclean ->]]].
  apply safeParse_success. rewrite partial_is_optional_strict.
  rewrite parse_object_shape, optional_shape_agrees;
    [|reflexivity | exact Hclean].
  unfold shape_of, Schema.insertMeetingMetadataSchema in *.
  rewrite Hclean. reflexivity.
Qed.

(** The request schema is the same in both modules. *)
Lemma requestSchema_same : PartialSchema.requestSchema = Schema.requestSchema.
Proof. reflexivity. Qed.

(** The strict module refuses the answer that lacks [meetingEfficiencyScore];
    the partial module accepts it. Were the service to import the partial
    module, that answer would be persisted. *)
Lemma partial_schema_accepts_missing_score :
  safeParse Example.simple_email Schema.insertMeetingMetadataSchema
    (Some Example.metadata_without_score)
  = Failure [mkIssue invalid_type [PKey "meetingEfficiencyScore"]]
  /\
  safeParse Example.simple_email PartialSchema.insertMeetingMetadataSchema
    (Some Example.metadata_without_score)
  = Success (Some Example.metadata_without_score).
Proof. split; vm_compute; reflexivity. Qed.

(** ** The scenarios, run *)

(** The request of the end-to-end scenario validates, under any email test
    that accepts its address. *)
Lemma m1_validates (is_email : string -> bool) :
  is_email "a@b.com" = true ->
  safeParse is_email Schema.requestSchema (Some Example.m1) = Success Example.m1_data.
Proof.
  intros H. unfold safeParse. cbn. rewrite H. reflexivity.
Qed.

(** A body with no [email], and a body whose [email] is no address, are
    refused before anything is called. *)
Lemma invalid_request_rejected_witness :
  run (handleSummary Example.rt (Example.world Example.answer true true true)
         (Some Example.no_email)) =
    ([], Normal {| success := false; error := EMessage "Invalid request" |})
  /\
  run (handleSummary Example.rt (Example.world Example.answer true true true)
         (Some Example.bad_email)) =
    ([], Normal {| success := false; error := EMessage "Invalid request" |}).
Proof.
  split; apply invalid_request_rejected; right; reflexivity.
Defined.

(** The chatbot answers [oops]: the handler throws. *)
Lemma non_json_response_throws_witness :
  run (handleSummary Example.rt (Example.world "oops" true true true)
         (Some Example.m1)) =
    ([Ask (asked Example.rt Example.m1_data)], Throw SyntaxError).
Proof.
  apply (non_json_response_throws Example.rt _ _ Example.m1_data "oops").
  - apply m1_validates. reflexivity.
  - reflexivity.
  - vm_compute. reflexivity.
Defined.

(** The chatbot answers everything but [meetingEfficiencyScore]: the handler
    returns the error that names it. The chatbot answers an action item with
    no [id]: the handler returns an error as well. *)
Lemma missing_field_rejected_witness :
  (exists e,
     In (mkIssue invalid_type [PKey "meetingEfficiencyScore"]) e /\
     run (handleSummary Example.rt
            (Example.world Example.answer_without_score true true true)
            (Some Example.m1)) =
       ([Ask (asked Example.rt Example.m1_data)],
        Normal {| success := false; error := EZod e |}))
  /\
  (exists e,
     e <> [] /\
     run (handleSummary Example.rt
            (Example.world Example.answer_without_item_id true true true)
            (Some Example.m1)) =
       ([Ask (asked Example.rt Example.m1_data)],
        Normal {| success := false; error := EZod e |})).
Proof.
  split.
  - destruct (missing_field_rejected Example.rt
                (Example.world Example.answer_without_score true true true)
                (Some Example.m1) Example.m1_data Example.answer_without_score
                Example.metadata_without_score)
      as [e [_ [_ [Hissue Hrun]]]].
    + apply m1_validates. reflexivity.
    + reflexivity.
    + vm_compute. reflexivity.
    + apply (lacks_here _ _ "meetingEfficiencyScore" z_number).
      * cbn. repeat first [left; reflexivity | right].
      * reflexivity.
      * reflexivity.
    + exists e. split; [|exact Hrun]. apply Hissue.
      * cbn. repeat first [left; reflexivity | right].
      * reflexivity.
  - destruct (missing_field_rejected Example.rt
                (Example.world Example.answer_without_item_id true true true)
                (Some Example.m1) Example.m1_data Example.answer_without_item_id
                Example.metadata_without_item_id)
      as [e [Hne [_ [_ Hrun]]]].
    + apply m1_validates. reflexivity.
    + reflexivity.
    + vm_compute. reflexivity.
    + eapply (lacks_below _ _ "actionItems").
      * cbn. repeat first [left; reflexivity | right].
      * reflexivity.
      * eapply lacks_item; [left; reflexivity|].
        apply (lacks_here _ _ "id" (z_string [min 1])).
        -- left. reflexivity.
        -- reflexivity.
        -- reflexivity.
    + exists e. split; assumption.
Defined.

(** The metadata store refuses the upsert: the run stops there. *)
Lemma store_failure_stops_witness :
  run (handleSummary Example.rt (Example.world Example.answer false true true)
         (Some Example.m1)) =
    ([Ask (asked Example.rt Example.m1_data);
      Fetch (meeting_url Example.rt (Example.world Example.answer false true true))
        (Some (stored Example.rt Example.m1_data (Some Example.metadata)))],
     Normal {| success := false;
               error := EMessage "Failed to update meeting metadata" |}).
Proof.
  apply (store_failure_stops Example.rt _ _ Example.m1_data Example.answer
           Example.metadata (Some Example.metadata)
           {| ok := false; response_json := inr JNull |}).
  - apply m1_validates. reflexivity.
  - reflexivity.
  - vm_compute. reflexivity.
  - vm_compute. reflexivity.
  - reflexivity.
  - reflexivity.
Defined.

(** C3 (as stated, refuted). Every stage up to persistence passes, the store
    having been called once, and the presigned-URL service answers with a
    non-success status: the handler does not return
    [{success: false, error: "Failed to upload presentation"}], it throws. *)
Lemma presign_failure_is_thrown :
  ok_of (fetch (Example.world Example.answer true false true)
           (signing Example.rt (Example.world Example.answer true false true)
              Example.m1_data) None) = Some false
  /\
  upserts (meeting_url Example.rt (Example.world Example.answer true false true))
    (fst (run (handleSummary Example.rt
                 (Example.world Example.answer true false true)
                 (Some Example.m1)))) = 1
  /\
  snd (run (handleSummary Example.rt (Example.world Example.answer true false true)
              (Some Example.m1))) =
    Throw (Error "Failed to get pre-signed upload URL").
Proof. repeat split; vm_compute; reflexivity. Qed.

(** The two failures of the upload stage, run: the refused signature throws,
    the refused transfer is reported. *)
Lemma upload_failure_reported_witness :
  (exists tr,
     run (handleSummary Example.rt (Example.world Example.answer true false true)
            (Some Example.m1)) =
       (tr, Throw (Error "Failed to get pre-signed upload URL")) /\
     upserts (meeting_url Example.rt (Example.world Example.answer true false true))
       tr = 1)
  /\
  (exists tr,
     run (handleSummary Example.rt (Example.world Example.answer true true false)
            (Some Example.m1)) =
       (tr, Normal {| success := false;
                      error := EMessage "Failed to upload presentation" |}) /\
     upserts (meeting_url Example.rt (Example.world Example.answer true true false))
       tr = 1).
Proof.
  split.
  - destruct (upload_failure_reported Example.rt
                (Example.world Example.answer true false true) (Some Example.m1)
                Example.m1_data Example.answer Example.metadata
                (Some Example.metadata)
                {| ok := true; response_json := inr JNull |}
                {| ok := false; response_json := inr Example.signed_content |})
      as [Hthrown _].
    + apply m1_validates. reflexivity.
    + reflexivity.
    + vm_compute. reflexivity.
    + vm_compute. reflexivity.
    + reflexivity.
    + reflexivity.
    + reflexivity.
    + destruct (Hthrown eq_refl) as [tr [Hrun [_ Honce]]].
      exists tr. split; assumption.
  - destruct (upload_failure_reported Example.rt
                (Example.world Example.answer true true false) (Some Example.m1)
                Example.m1_data Example.answer Example.metadata
                (Some Example.metadata)
                {| ok := true; response_json := inr JNull |}
                {| ok := true; response_json := inr Example.signed_content |})
      as [_ Hrefused].
    + apply m1_validates. reflexivity.
    + reflexivity.
    + vm_compute. reflexivity.
    + vm_compute. reflexivity.
    + reflexivity.
    + reflexivity.
    + reflexivity.
    + destruct (Hrefused Example.signed_content
                  (Some (JStr "https://storage.example/put"))
                  {| ok := false; response_json := inr JNull |}
                  eq_refl eq_refl eq_refl eq_refl eq_refl)
        as [tr [Hrun [_ Honce]]].
      exists tr. split; assumption.
Defined.

(** The end-to-end scenario with every collaborator answering success. *)
Lemma pipeline_succeeds_witness :
  run (handleSummary Example.rt (Example.world Example.answer true true true)
         (Some Example.m1)) =
    ([Ask (asked Example.rt Example.m1_data);
      Fetch (meeting_url Example.rt (Example.world Example.answer true true true))
        (Some (stored Example.rt Example.m1_data (Some Example.metadata)));
      WriteFile (deck Example.metadata_view);
      Fetch (signing Example.rt (Example.world Example.answer true true true)
               Example.m1_data) None;
      Fetch "https://storage.example/put"
        (Some (uploaded Example.rt (Example.world Example.answer true true true)
                 (Some Example.metadata)))],
     Normal {| success := true; error := ENull |}).
Proof.
  apply (pipeline_succeeds Example.rt
           (Example.world Example.answer true true true) _ Example.m1_data
           Example.answer Example.metadata (Some Example.metadata)
           {| ok := true; response_json := inr JNull |}
           {| ok := true; response_json := inr Example.signed_content |}
           Example.signed_content (Some (JStr "https://storage.example/put"))
           {| ok := true; response_json := inr JNull |}).
  - apply m1_validates. reflexivity.
  - reflexivity.
  - vm_compute. reflexivity.
  - vm_compute. reflexivity.
  - reflexivity.
  - reflexivity.
  - reflexivity.
  - reflexivity.
  - reflexivity.
  - reflexivity.
  - reflexivity.
  - reflexivity.
Defined.



(** The scenario's request and the same request with other times and
    participants run alike. *)
Lemma unused_request_fields_witness :
  asked Example.rt Example.m1_data =
    asked Example.rt (Some (request_json
      {| request_id := "m1"; request_email := "a@b.com";
         startTime := "t2"; endTime := "t3";
         participants := ["Alice"; "Bob"];
         transcript := transcript Example.m1_request |}))
  /\
  run (handleSummary Example.rt (Example.world Example.answer true true true)
         (Some Example.m1)) =
  run (handleSummary Example.rt (Example.world Example.answer true true true)
         (Some Example.m1_later)).
Proof.
  destruct (unused_request_fields Example.rt
              (Example.world Example.answer true true true)
              (Some Example.m1) (Some Example.m1_later) Example.m1_data
              (Some (request_json
                 {| request_id := "m1"; request_email := "a@b.com";
                    startTime := "t2"; endTime := "t3";
                    participants := ["Alice"; "Bob"];
                    transcript := transcript Example.m1_request |})))
    as [Hprompt [_ [_ Hrun]]].
  - apply m1_validates. reflexivity.
  - vm_compute. reflexivity.
  - intros k H1 H2 H3.
    unfold field, get_prop, Example.m1, Example.m1_later, Example.request.
    cbn [lookup].
    destruct (String.eqb k "id"); [reflexivity|].
    destruct (String.eqb k "email"); [reflexivity|].
    destruct (String.eqb_spec k "startTime"); [contradiction|].
    destruct (String.eqb_spec k "endTime"); [contradiction|].
    destruct (String.eqb_spec k "participants"); [contradiction|].
    reflexivity.
  - split; [exact Hprompt | exact Hrun].
Defined.

(** The slides for the fully populated answer. *)
Lemma presentation_has_four_slides_witness :
  presentation Example.rt (Some Example.metadata) =
    inr (deck Example.metadata_view)
  /\
  exists view,
    shows (Some Example.metadata) view /\
    presentation Example.rt (Some Example.metadata) = inr (deck view) /\
    List.length (deck view) = 4.
Proof.
  split; [vm_compute; reflexivity|].
  destruct (presentation_has_four_slides Example.rt
              (Example.world Example.answer true true true)
              (Some Example.metadata) (Some Example.metadata) None)
    as [view [Hs [Hp [Hl _]]]].
  - vm_compute. reflexivity.
  - exists view. auto.
Defined.

(** * Further facts *)

(** ** Validation, characterised *)

Section Violations.

Variable is_email : string -> bool.

Lemma type_ok_dirty s :
  forall v p, type_ok s v = false -> fst (parse is_email s p (Some v)) <> [].
Proof.
  induction s; intros v p H; try (destruct v; try discriminate H; discriminate).
  cbn [parse]. apply IHs. exact H.
Qed.

Lemma check_dirty p str c checks :
  In c checks -> run_check is_email p str c <> [] ->
  flat_map (run_check is_email p str) checks <> [].
Proof.
  intros Hin Hc Hnil. apply Hc.
  induction checks as [|c' rest IH]; [contradiction|].
  cbn [flat_map] in Hnil. apply app_eq_nil in Hnil. destruct Hnil as [H1 H2].
  destruct Hin as [-> | Hin]; [exact H1 | apply IH; assumption].
Qed.

(** Every violation raises an issue. *)
Lemma violates_dirty s v :
  violates is_email s v -> forall p, fst (parse is_email s p (Some v)) <> [].
Proof.
  induction 1 as [s v Htype
                 | checks n str Hin Hshort
                 | checks str Hin Hbad
                 | values str Hout
                 | shape props k sk Hin Hreq Hnone
                 | shape props k sk v Hin Hsome _ IH
                 | element items v Hin _ IH
                 | inner v _ IH]; intros p.
  - apply type_ok_dirty. exact Htype.
  - cbn [parse fst]. apply (check_dirty p str (min n) checks Hin).
    cbn [run_check]. apply Nat.leb_gt in Hshort. rewrite Hshort. discriminate.
  - cbn [parse fst]. apply (check_dirty p str email checks Hin).
    cbn [run_check]. rewrite Hbad. discriminate.
  - cbn [parse]. rewrite Hout. discriminate.
  - rewrite parse_object_shape. cbn [fst].
    apply (parse_shape_dirty is_email p props shape k sk Hin).
    rewrite Hnone, (parse_required_undefined _ _ _ Hreq). discriminate.
  - rewrite parse_object_shape. cbn [fst].
    apply (parse_shape_dirty is_email p props shape k sk Hin).
    rewrite Hsome. apply IH.
  - rewrite parse_array_items. cbn [fst].
    apply (parse_items_dirty is_email element p v items Hin IH).
  - cbn [parse]. apply IH.
Qed.

Lemma check_dirty_inv p str checks :
  flat_map (run_check is_email p str) checks <> [] ->
  exists c, In c checks /\ run_check is_email p str c <> [].
Proof.
  induction checks as [|c rest IH]; intros H.
  - contradiction H. reflexivity.
  - cbn [flat_map] in H.
    destruct (run_check is_email p str c) as [|i l] eqn:Hc.
    + destruct (IH H) as [c' [Hin Hc']]. exists c'. split; [right|]; assumption.
    + exists c. split; [left; reflexivity|]. rewrite Hc. discriminate.
Qed.

Lemma parse_shape_dirty_inv p props sh :
  fst (parse_shape is_email p props sh) <> [] ->
  exists k sk, In (k, sk) sh /\
               fst (parse is_email sk (p ++ [PKey k])%list (lookup k props)) <> [].
Proof.
  induction sh as [|[k sk] rest IH]; intros H.
  - contradiction H. reflexivity.
  - rewrite parse_shape_cons in H. cbn [fst snd] in H.
    destruct (fst (parse is_email sk (p ++ [PKey k])%list (lookup k props)))
      as [|i l] eqn:Hk.
    + destruct (IH H) as [k' [sk' [Hin Hd]]].
      exists k', sk'. split; [right|]; assumption.
    + exists k, sk. split; [left; reflexivity|]. rewrite Hk. discriminate.
Qed.

Lemma parse_items_dirty_inv element p items :
  forall i,
    fst (parse_items is_email element p i items) <> [] ->
    exists x q, In x items /\ fst (parse is_email element q (Some x)) <> [].
Proof.
  induction items as [|x rest IH]; intros i H.
  - contradiction H. reflexivity.
  - rewrite parse_items_cons in H. cbn [fst snd] in H.
    destruct (fst (parse is_email element (p ++ [PIndex i])%list (Some x)))
      as [|e l] eqn:Hx.
    + destruct (IH _ H) as [y [q [Hin Hd]]].
      exists y, q. split; [right|]; assumption.
    + exists x, (p ++ [PIndex i])%list. split; [left; reflexivity|].
      rewrite Hx. discriminate.
Qed.

(** Every issue comes from a violation. *)
Lemma dirty_violates s :
  forall p v, fst (parse is_email s p (Some v)) <> [] -> violates is_email s v.
Proof.
  induction s as [checks | | | values | element IH | shape IH | inner IH]
    using schema_nested_ind; intros p v H.
  - destruct v as [| | |str| |]; try (apply violates_type; reflexivity).
    cbn [parse fst] in H. destruct (check_dirty_inv _ _ _ H) as [c [Hin Hc]].
    destruct c as [n|]; cbn [run_check] in Hc.
    + apply (violates_min _ _ n _ Hin). apply Nat.leb_gt.
      destruct (Nat.leb n (String.length str)); [contradiction Hc|]; reflexivity.
    + apply (violates_email _ _ _ Hin).
      destruct (is_email str); [contradiction Hc|]; reflexivity.
  - destruct v; try (apply violates_type; reflexivity). contradiction H. reflexivity.
  - destruct v; try (apply violates_type; reflexivity). contradiction H. reflexivity.
  - destruct v as [| | |str| |]; try (apply violates_type; reflexivity).
    cbn [parse] in H. apply violates_enum.
    destruct (mem str values); [contradiction H|]; reflexivity.
  - destruct v as [| | | |items|]; try (apply violates_type; reflexivity).
    rewrite parse_array_items in H. cbn [fst] in H.
    destruct (parse_items_dirty_inv _ _ _ _ H) as [x [q [Hin Hd]]].
    apply (violates_item _ _ _ x Hin). apply (IH q). exact Hd.
  - destruct v as [| | | | |props]; try (apply violates_type; reflexivity).
    rewrite parse_object_shape in H. cbn [fst] in H.
    destruct (parse_shape_dirty_inv _ _ _ H) as [k [sk [Hin Hd]]].
    rewrite Forall_forall in IH. specialize (IH (k, sk) Hin). cbn [snd] in IH.
    destruct (lookup k props) as [x|] eqn:Hx.
    + apply (violates_field _ _ _ k sk x Hin Hx). apply (IH _ _ Hd).
    + apply (violates_missing _ _ _ k sk Hin); [|exact Hx].
      destruct sk; try reflexivity. contradiction Hd. reflexivity.
  - cbn [parse] in H. apply violates_optional. apply (IH p). exact H.
Qed.

(** [safeParse] fails on a value exactly when the value violates the schema. *)
Theorem safeParse_fails_iff_violates s v :
  (exists e, safeParse is_email s (Some v) = Failure e) <-> violates is_email s v.
Proof.
  split.
  - intros [e He]. apply safeParse_failure in He. destruct He as [<- Hne].
    apply (dirty_violates s [] v Hne).
  - intros H. exists (fst (parse is_email s [] (Some v))).
    apply safeParse_failure. split; [reflexivity|]. apply violates_dirty. exact H.
Qed.

End Violations.

(** ** Validating twice *)

Lemma nodupb_NoDup l : nodupb l = true -> NoDup l.
Proof.
  induction l as [|x rest IH]; intros H; [constructor|].
  cbn [nodupb] in H. apply andb_prop in H. destruct H as [Hx Hrest].
  constructor; [|apply IH; exact Hrest].
  apply not_mem. destruct (mem x rest); [discriminate Hx | reflexivity].
Qed.

Lemma distinct_keys_object shape :
  distinct_keys (z_object shape) = true ->
  NoDup (map fst shape) /\
  Forall (fun ks => distinct_keys (snd ks) = true) shape.
Proof.
  cbn [distinct_keys]. intros H. apply andb_prop in H. destruct H as [Hnd Hall].
  split; [apply nodupb_NoDup; exact Hnd|].
  clear Hnd. induction shape as [|[k sk] rest IH]; [constructor|].
  apply andb_prop in Hall. destruct Hall as [Hk Hrest].
  constructor; [exact Hk | apply IH; exact Hrest].
Qed.

Section Idempotence.

Variable is_email : string -> bool.

(** Whether a string passes its checks does not depend on where it stands. *)
Lemma checks_anywhere p q str checks :
  flat_map (run_check is_email p str) checks = [] ->
  flat_map (run_check is_email q str) checks = [].
Proof.
  induction checks as [|c rest IH]; intros H; [reflexivity|].
  cbn [flat_map] in *. apply app_eq_nil in H. destruct H as [H1 H2].
  rewrite (IH H2), app_nil_r.
  destruct c as [n|]; cbn [run_check] in *.
  - destruct (Nat.leb n (String.length str)); [reflexivity | discriminate H1].
  - destruct (is_email str); [reflexivity | discriminate H1].
Qed.

Lemma parse_items_again element p q :
  (forall p v, fst (parse is_email element p v) = [] ->
               forall q, parse is_email element q (snd (parse is_email element p v))
                         = ([], snd (parse is_email element p v))) ->
  forall items i j,
    fst (parse_items is_email element p i items) = [] ->
    parse_items is_email element q j (snd (parse_items is_email element p i items))
    = ([], snd (parse_items is_email element p i items)).
Proof.
  intros IHe. induction items as [|x rest IH]; intros i j Hclean.
  - reflexivity.
  - rewrite parse_items_cons in *. cbn [fst snd] in *.
    apply app_eq_nil in Hclean. destruct Hclean as [H1 H2].
    pose proof (IHe _ _ H1 (q ++ [PIndex j])%list) as Hx.
    destruct (snd (parse is_email element (p ++ [PIndex i])%list (Some x)))
      as [y|] eqn:Hy.
    + rewrite parse_items_cons. cbn [fst snd]. rewrite Hx. cbn [fst snd app].
      rewrite (IH _ (S j) H2). reflexivity.
    + apply IH. exact H2.
Qed.

Lemma parse_shape_again p q props out sh :
  Forall (fun ks =>
            lookup (fst ks) out =
              snd (parse is_email (snd ks) (p ++ [PKey (fst ks)])%list
                     (lookup (fst ks) props)) /\
            forall q', parse is_email (snd ks) q'
                         (snd (parse is_email (snd ks) (p ++ [PKey (fst ks)])%list
                                 (lookup (fst ks) props)))
                       = ([], snd (parse is_email (snd ks)
                                     (p ++ [PKey (fst ks)])%list
                                     (lookup (fst ks) props)))) sh ->
  parse_shape is_email q out sh = ([], snd (parse_shape is_email p props sh)).
Proof.
  induction 1 as [|[k sk] rest [Hlook Hagain] _ IH].
  - reflexivity.
  - cbn [fst snd] in *. rewrite !parse_shape_cons. cbn [fst snd].
    rewrite IH, Hlook, Hagain. reflexivity.
Qed.

(** The output of a parse that raised no issue parses to itself, anywhere. *)
Lemma parse_again s :
  distinct_keys s = true ->
  forall p v,
    fst (parse is_email s p v) = [] ->
    forall q, parse is_email s q (snd (parse is_email s p v))
              = ([], snd (parse is_email s p v)).
Proof.
  induction s as [checks | | | values | element IH | shape IH | inner IH]
    using schema_nested_ind; intros Hwf p v Hclean q.
  - destruct v as [[| | |str| |]|]; try discriminate Hclean.
    cbn [parse fst snd] in *. rewrite (checks_anywhere p q _ _ Hclean). reflexivity.
  - destruct v as [[]|]; try discriminate Hclean. reflexivity.
  - destruct v as [[]|]; try discriminate Hclean. reflexivity.
  - destruct v as [[| | |str| |]|]; try discriminate Hclean.
    cbn [parse] in *. destruct (mem str values) eqn:Hm; [|discriminate Hclean].
    cbn [snd parse]. rewrite Hm. reflexivity.
  - destruct v as [[| | | |items|]|]; try discriminate Hclean.
    rewrite parse_array_items in *. cbn [fst snd] in *.
    rewrite parse_array_items, (parse_items_again element _ _ (IH Hwf) _ _ _ Hclean).
    reflexivity.
  - destruct v as [[| | | | |props]|]; try discriminate Hclean.
    rewrite parse_object_shape in *. cbn [fst snd] in *.
    destruct (distinct_keys_object _ Hwf) as [Hnd Hall].
    rewrite parse_object_shape, (parse_shape_again p q props _ shape); [reflexivity|].
    apply parse_shape_clean in Hclean.
    rewrite Forall_forall in *. intros [k sk] Hin. cbn [fst snd]. split.
    + apply parse_shape_lookup; assumption.
    + intros q'. apply (IH (k, sk) Hin (Hall (k, sk) Hin)).
      apply (Hclean (k, sk) Hin).
  - destruct v as [x|].
    + cbn [parse distinct_keys] in *.
      pose proof (IH Hwf p (Some x) Hclean q) as Hx.
      destruct (snd (parse is_email inner p (Some x))); [exact Hx | reflexivity].
    + reflexivity.
Qed.

(** X1. Validated data is valid: what any of the three schemas of the repository
    returns, it accepts again and returns unchanged. *)
Theorem validated_data_is_valid s v data :
  In s [Schema.requestSchema; Schema.insertMeetingMetadataSchema;
        PartialSchema.insertMeetingMetadataSchema] ->
  safeParse is_email s v = Success data ->
  safeParse is_email s data = Success data.
Proof.
  intros Hs H.
  assert (distinct_keys s = true) as Hwf.
  { destruct Hs as [<- | [<- | [<- | []]]]; reflexivity. }
  apply safeParse_success in H. apply safeParse_success.
  pose proof (parse_again s Hwf [] v) as Hagain.
  rewrite H in Hagain. apply Hagain. reflexivity.
Qed.

End Idempotence.

(** ** The request schema and the request type *)

Section RequestType.

Variable is_email : string -> bool.

Lemma min1_clean p s :
  fst (parse is_email (z_string [min 1]) p (Some (JStr s))) = [] <-> s <> "".
Proof.
  destruct s; cbn; split; intros H; try discriminate; try reflexivity.
  contradiction H. reflexivity.
Qed.

Lemma strings_output checks p l :
  forall i, snd (parse_items is_email (z_string checks) p i (map JStr l)) = map JStr l.
Proof.
  induction l as [|s rest IH]; intros i; [reflexivity|].
  cbn [map]. rewrite parse_items_cons. cbn [fst snd parse]. rewrite IH. reflexivity.
Qed.

Lemma strings_clean p l :
  forall i,
    fst (parse_items is_email (z_string [min 1]) p i (map JStr l)) = [] <->
    Forall (fun s => s <> "") l.
Proof.
  induction l as [|s rest IH]; intros i.
  - split; intros; [constructor | reflexivity].
  - cbn [map]. rewrite parse_items_cons. cbn [fst snd]. split.
    + intros H. apply app_eq_nil in H. destruct H as [H1 H2].
      constructor; [apply (min1_clean _ _) in H1; exact H1 | apply (IH (S i)); exact H2].
    + intros H. inversion H as [|? ? Hs Hrest]; subst.
      apply (min1_clean (p ++ [PIndex i])%list) in Hs. rewrite Hs.
      apply (IH (S i)) in Hrest. rewrite Hrest. reflexivity.
Qed.

Lemma block_output p b :
  snd (parse is_email Schema.TranscriptBlockSchema p (Some (block_json b))) =
  Some (block_json b).
Proof. reflexivity. Qed.

Lemma block_clean p b :
  fst (parse is_email Schema.TranscriptBlockSchema p (Some (block_json b))) = [] <->
  block_ok b.
Proof.
  unfold Schema.TranscriptBlockSchema, block_json, block_ok.
  rewrite parse_object_shape. cbn [fst]. rewrite parse_shape_clean. split.
  - intros H. inversion H as [|? ? H1 Hf1]; subst. inversion Hf1 as [|? ? H2 Hf2]; subst.
    inversion Hf2 as [|? ? H3 _]; subst. cbn [fst snd lookup String.eqb Ascii.eqb Bool.eqb] in *.
    apply min1_clean in H1. apply min1_clean in H2. apply min1_clean in H3. auto.
  - intros [H1 [H2 H3]].
    repeat constructor; cbn [fst snd lookup String.eqb Ascii.eqb Bool.eqb];
      apply min1_clean; assumption.
Qed.

Lemma blocks_output p l :
  forall i,
    snd (parse_items is_email Schema.TranscriptBlockSchema p i (map block_json l))
    = map block_json l.
Proof.
  induction l as [|b rest IH]; intros i; [reflexivity|].
  cbn [map]. rewrite parse_items_cons. cbn [fst snd]. rewrite block_output, IH.
  reflexivity.
Qed.

Lemma blocks_clean p l :
  forall i,
    fst (parse_items is_email Schema.TranscriptBlockSchema p i (map block_json l)) = []
    <-> Forall block_ok l.
Proof.
  induction l as [|b rest IH]; intros i.
  - split; intros; [constructor | reflexivity].
  - cbn [map]. rewrite parse_items_cons. cbn [fst snd]. split.
    + intros H. apply app_eq_nil in H. destruct H as [H1 H2].
      constructor; [apply block_clean in H1; exact H1 | apply (IH (S i)); exact H2].
    + intros H. inversion H as [|? ? Hb Hrest]; subst.
      apply (block_clean (p ++ [PIndex i])%list) in Hb. rewrite Hb.
      apply (IH (S i)) in Hrest. rewrite Hrest. reflexivity.
Qed.

(** A request, encoded, parses to itself; it raises no issue exactly when it
    is well formed. *)
Lemma request_parse r :
  snd (parse is_email Schema.requestSchema [] (Some (request_json r)))
    = Some (request_json r) /\
  (fst (parse is_email Schema.requestSchema [] (Some (request_json r))) = []
   <-> well_formed is_email r).
Proof.
  unfold Schema.requestSchema, Schema.TranscriptSchema, request_json, transcript_json.
  rewrite parse_object_shape. cbn [fst snd]. split.
  - rewrite !parse_shape_cons.
    cbn [fst snd parse_shape lookup String.eqb Ascii.eqb Bool.eqb app].
    rewrite !parse_array_items. cbn [fst snd parse].
    rewrite strings_output, blocks_output. reflexivity.
  - rewrite parse_shape_clean. unfold well_formed. split.
    + intros H. inversion H as [|? ? H1 Hf1]; subst. inversion Hf1 as [|? ? H2 Hf2]; subst.
      inversion Hf2 as [|? ? H3 Hf3]; subst. inversion Hf3 as [|? ? H4 Hf4]; subst.
      inversion Hf4 as [|? ? H5 Hf5]; subst. inversion Hf5 as [|? ? H6 _]; subst.
      cbn [fst snd lookup String.eqb Ascii.eqb Bool.eqb app] in *.
      rewrite parse_array_items in H5, H6. cbn [fst] in H5, H6.
      apply min1_clean in H1. apply min1_clean in H3. apply min1_clean in H4.
      apply strings_clean in H5. apply blocks_clean in H6.
      repeat split; try assumption.
      cbn [parse fst flat_map run_check] in H2.
      destruct (is_email (request_email r)); [reflexivity | discriminate H2].
    + intros [H1 [H2 [H3 [H4 [H5 H6]]]]].
      repeat constructor;
        cbn [fst snd lookup String.eqb Ascii.eqb Bool.eqb app];
        try (apply min1_clean; assumption).
      * cbn [parse fst flat_map run_check]. rewrite H2. reflexivity.
      * rewrite parse_array_items. cbn [fst]. apply strings_clean. exact H5.
      * rewrite parse_array_items. cbn [fst]. apply blocks_clean. exact H6.
Qed.

(** X2. The data [handleSummary] works on are exactly the well-formed requests:
    whatever [requestSchema] returns is the encoding of a well-formed
    [Request], and the encoding of every well-formed [Request] is returned,
    for itself as the body. *)
Theorem request_data_are_well_formed data :
  (exists body, safeParse is_email Schema.requestSchema body = Success data) <->
  (exists r, well_formed is_email r /\ data = Some (request_json r)).
Proof.
  split.
  - intros [body H].
    pose proof H as Hagain. apply safeParse_success in Hagain.
    pose proof (parse_again is_email Schema.requestSchema eq_refl [] body) as Htwice.
    rewrite Hagain in Htwice. specialize (Htwice eq_refl []). cbn [snd] in Htwice.
    destruct (request_valid _ _ _ H) as [props [r [_ [-> _]]]].
    exists r. split; [|reflexivity].
    apply (proj2 (request_parse r)). rewrite Htwice. reflexivity.
  - intros [r [Hwf ->]]. exists (Some (request_json r)).
    apply safeParse_success.
    destruct (request_parse r) as [Hout Hclean]. apply Hclean in Hwf.
    destruct (parse is_email Schema.requestSchema [] (Some (request_json r))) as [e o].
    cbn [fst snd] in *. subst. reflexivity.
Qed.

End RequestType.

(** ** Every run of the handler *)

Section EveryRun.

Variable rt : Runtime.
Variable world : World.

(** Whatever the body and whatever the collaborators answer, the run of
    [handleSummary] ends in one of the thirteen ways of [Outcome]. *)
Lemma handleSummary_outcome body :
  Outcome rt world body
    (fst (run (handleSummary rt world body)))
    (snd (run (handleSummary rt world body))).
Proof.
  destruct (safeParse (zod_email rt) Schema.requestSchema body) as [data|e] eqn:Hreq.
  2: { unfold_handler. rewrite Hreq. apply (out_invalid rt world body e Hreq). }
  destruct (chatbot_ask world (asked rt data)) as [e|answer] eqn:Hask.
  { pose proof (out_chatbot_rejects rt world body data e Hreq Hask) as Hout.
    destruct (request_valid _ _ _ Hreq) as [props [r [-> [-> _]]]].
    unfold_handler. rewrite Hreq. evaluate. rewrite Hask. exact Hout. }
  destruct (JSON_parse rt answer) as [parsed|] eqn:Hjson.
  2: { pose proof (out_not_json rt world body data answer Hreq Hask Hjson) as Hout.
       destruct (request_valid _ _ _ Hreq) as [props [r [-> [-> _]]]].
       unfold_handler. rewrite Hreq. evaluate. rewrite Hask. evaluate.
       rewrite Hjson. exact Hout. }
  destruct (safeParse (zod_email rt) Schema.insertMeetingMetadataSchema (Some parsed))
    as [mdata|e] eqn:Hmeta.
  2: { pose proof (out_answer_refused rt world body data answer parsed e
                     Hreq Hask Hjson Hmeta) as Hout.
       destruct (request_valid _ _ _ Hreq) as [props [r [-> [-> _]]]].
       unfold_handler. rewrite Hreq. evaluate. rewrite Hask. evaluate.
       rewrite Hjson. evaluate. rewrite Hmeta. exact Hout. }
  assert (validated rt world body data answer parsed mdata) as Hval
    by (repeat split; assumption).
  pose proof (presentation_of_valid rt _ _ Hmeta) as Hpres.
  destruct (fetch world (meeting_url rt world) (Some (stored rt data mdata)))
    as [e|res] eqn:Hput.
  { pose proof (out_store_rejects rt world body data answer parsed mdata e
                  Hval Hput) as Hout.
    destruct (request_valid _ _ _ Hreq) as [props [r [-> [-> _]]]].
    unfold_handler. rewrite Hreq. evaluate. rewrite Hask. evaluate.
    rewrite Hjson. evaluate. rewrite Hmeta. evaluate. rewrite Hput. exact Hout. }
  destruct (ok res) eqn:Hok.
  2: { pose proof (out_store_refuses rt world body data answer parsed mdata res
                     Hval Hput Hok) as Hout.
       destruct (request_valid _ _ _ Hreq) as [props [r [-> [-> _]]]].
       unfold_handler. rewrite Hreq. evaluate. rewrite Hask. evaluate.
       rewrite Hjson. evaluate. rewrite Hmeta. evaluate. rewrite Hput. evaluate.
       rewrite Hok. exact Hout. }
  assert (persisted rt world body data mdata) as Hper
    by (exists answer, parsed, res; repeat split; assumption).
  destruct (fetch world (signing rt world data) None) as [e|response] eqn:Hsign.
  { pose proof (out_signer_rejects rt world body data mdata e Hper Hsign) as Hout.
    destruct (request_valid _ _ _ Hreq) as [props [r [-> [-> _]]]].
    unfold_handler. rewrite Hreq. evaluate. rewrite Hask. evaluate.
    rewrite Hjson. evaluate. rewrite Hmeta. evaluate. rewrite Hput. evaluate.
    rewrite Hok. evaluate. rewrite Hpres. evaluate. rewrite Hsign. exact Hout. }
  destruct (ok response) eqn:Hyes.
  2: { pose proof (out_signer_refuses rt world body data mdata response
                     Hper Hsign Hyes) as Hout.
       destruct (request_valid _ _ _ Hreq) as [props [r [-> [-> _]]]].
       unfold_handler. rewrite Hreq. evaluate. rewrite Hask. evaluate.
       rewrite Hjson. evaluate. rewrite Hmeta. evaluate. rewrite Hput. evaluate.
       rewrite Hok. evaluate. rewrite Hpres. evaluate. rewrite Hsign. evaluate.
       rewrite Hyes. exact Hout. }
  destruct (response_json response) as [e|content] eqn:Hcontent.
  { pose proof (out_signer_unreadable rt world body data mdata response e
                  Hper Hsign Hyes Hcontent) as Hout.
    destruct (request_valid _ _ _ Hreq) as [props [r [-> [-> _]]]].
    unfold_handler. rewrite Hreq. evaluate. rewrite Hask. evaluate.
    rewrite Hjson. evaluate. rewrite Hmeta. evaluate. rewrite Hput. evaluate.
    rewrite Hok. evaluate. rewrite Hpres. evaluate. rewrite Hsign. evaluate.
    rewrite Hyes. evaluate. rewrite Hcontent. exact Hout. }
  destruct (get_prop (Some content) "url") as [e|uploadUrl] eqn:Hurl.
  { pose proof (out_signer_null rt world body data mdata response content e
                  Hper Hsign Hyes Hcontent Hurl) as Hout.
    destruct (request_valid _ _ _ Hreq) as [props [r [-> [-> _]]]].
    unfold_handler. rewrite Hreq. evaluate. rewrite Hask. evaluate.
    rewrite Hjson. evaluate. rewrite Hmeta. evaluate. rewrite Hput. evaluate.
    rewrite Hok. evaluate. rewrite Hpres. evaluate. rewrite Hsign. evaluate.
    rewrite Hyes. evaluate. rewrite Hcontent. evaluate. rewrite Hurl. exact Hout. }
  assert (signed_for rt world body data mdata uploadUrl) as Hsig
    by (split; [exact Hper | exists response, content; repeat split; assumption]).
  destruct (fetch world (interpolate (Number_toString rt) uploadUrl)
              (Some (uploaded rt world mdata))) as [e|upres] eqn:Hup.
  { pose proof (out_target_rejects rt world body data mdata uploadUrl e
                  Hsig Hup) as Hout.
    destruct (request_valid _ _ _ Hreq) as [props [r [-> [-> _]]]].
    unfold_handler. rewrite Hreq. evaluate. rewrite Hask. evaluate.
    rewrite Hjson. evaluate. rewrite Hmeta. evaluate. rewrite Hput. evaluate.
    rewrite Hok. evaluate. rewrite Hpres. evaluate. rewrite Hsign. evaluate.
    rewrite Hyes. evaluate. rewrite Hcontent. evaluate. rewrite Hurl. evaluate.
    rewrite Hup. exact Hout. }
  destruct (ok upres) eqn:Hdone.
  - pose proof (out_done rt world body data mdata uploadUrl upres
                  Hsig Hup Hdone) as Hout.
    destruct (request_valid _ _ _ Hreq) as [props [r [-> [-> _]]]].
    unfold_handler. rewrite Hreq. evaluate. rewrite Hask. evaluate.
    rewrite Hjson. evaluate. rewrite Hmeta. evaluate. rewrite Hput. evaluate.
    rewrite Hok. evaluate. rewrite Hpres. evaluate. rewrite Hsign. evaluate.
    rewrite Hyes. evaluate. rewrite Hcontent. evaluate. rewrite Hurl. evaluate.
    rewrite Hup. evaluate. rewrite Hdone. exact Hout.
  - pose proof (out_target_refuses rt world body data mdata uploadUrl upres
                  Hsig Hup Hdone) as Hout.
    destruct (request_valid _ _ _ Hreq) as [props [r [-> [-> _]]]].
    unfold_handler. rewrite Hreq. evaluate. rewrite Hask. evaluate.
    rewrite Hjson. evaluate. rewrite Hmeta. evaluate. rewrite Hput. evaluate.
    rewrite Hok. evaluate. rewrite Hpres. evaluate. rewrite Hsign. evaluate.
    rewrite Hyes. evaluate. rewrite Hcontent. evaluate. rewrite Hurl. evaluate.
    rewrite Hup. evaluate. rewrite Hdone. exact Hout.
Qed.

End EveryRun.

Ltac by_outcome rt world input tr c H :=
  pose proof (handleSummary_outcome rt world input) as H;
  remember (fst (run (handleSummary rt world input))) as tr;
  remember (snd (run (handleSummary rt world input))) as c;
  destruct H.

Section RunProperties.

Variable rt : Runtime.
Variable world : World.

(** X3. The calls of a run are an opening of one fixed sequence: the chatbot, the
    metadata store, [pptx.write()], the presigned-URL service, the upload
    target. No call is made twice, none out of this order, and there are at
    most five; the chatbot is always asked the same way. *)
Theorem calls_in_fixed_order input :
  (exists rest,
     (map kind_of (fst (run (handleSummary rt world input))) ++ rest)%list =
     [to_chatbot; to_fetch; to_pptx; to_fetch; to_fetch]) /\
  (forall call,
     In (Ask call) (fst (run (handleSummary rt world input))) ->
     integration call = "zenai" /\ profile call = "zenai-summary-bot" /\
     responseFormat call = "json_object" /\ temperature call = (3 # 10)%Q).
Proof.
  by_outcome rt world input tr c H; (split; [eexists; reflexivity|]);
    intros call Hin; cbn in Hin;
    repeat match goal with
           | H : _ \/ _ |- _ => destruct H
           | H : False |- _ => contradiction H
           | H : Ask _ = Ask _ |- _ => inversion H; subst; clear H
           | H : Fetch _ _ = Ask _ |- _ => discriminate H
           | H : WriteFile _ = Ask _ |- _ => discriminate H
           end;
    repeat split; reflexivity.
Qed.

(** X4. A returned object has a [null] error exactly when it reports success. *)
Theorem error_null_iff_success input r :
  snd (run (handleSummary rt world input)) = Normal r ->
  (success r = true <-> error r = ENull).
Proof.
  by_outcome rt world input tr c H; intros Hr; inversion Hr; subst; cbn;
    split; intros; try discriminate; reflexivity.
Qed.

(** X5. A run that reports success went through every stage: both validations
    passed, the store, the presigned-URL service and the upload target all
    answered with success, and the calls were the five of a full run. *)
Theorem success_means_all_stages input r :
  snd (run (handleSummary rt world input)) = Normal r ->
  success r = true ->
  exists data mdata uploadUrl res,
    signed_for rt world input data mdata uploadUrl /\
    fetch world (interpolate (Number_toString rt) uploadUrl)
      (Some (uploaded rt world mdata)) = inr res /\
    ok res = true /\
    fst (run (handleSummary rt world input)) =
      calls_to_target rt world data mdata uploadUrl.
Proof.
  by_outcome rt world input tr c H; intros Hr Hs; inversion Hr; subst r;
    try discriminate Hs.
  exists data, mdata, uploadUrl, res. auto.
Qed.

(** X6. Each fixed message names the stage that failed: [Invalid request] is
    returned only when the body failed its schema, before any call;
    [Failed to update meeting metadata] only when both validations passed and
    the store answered with a non-success status, after two calls;
    [Failed to upload presentation] only when the store and the presigned-URL
    service answered with success and the upload target did not. *)
Theorem message_names_the_stage input m :
  snd (run (handleSummary rt world input)) =
    Normal {| success := false; error := EMessage m |} ->
  (m = "Invalid request" /\
   fst (run (handleSummary rt world input)) = [] /\
   exists e, safeParse (zod_email rt) Schema.requestSchema input = Failure e)
  \/
  (m = "Failed to update meeting metadata" /\
   exists data answer parsed mdata res,
     validated rt world input data answer parsed mdata /\
     fetch world (meeting_url rt world) (Some (stored rt data mdata)) = inr res /\
     ok res = false /\
     fst (run (handleSummary rt world input)) = calls_to_store rt world data mdata)
  \/
  (m = "Failed to upload presentation" /\
   exists data mdata uploadUrl res,
     signed_for rt world input data mdata uploadUrl /\
     fetch world (interpolate (Number_toString rt) uploadUrl)
       (Some (uploaded rt world mdata)) = inr res /\
     ok res = false /\
     fst (run (handleSummary rt world input)) =
       calls_to_target rt world data mdata uploadUrl).
Proof.
  by_outcome rt world input tr c H; intros Hr; inversion Hr; subst.
  - left. split; [reflexivity|]. split; [reflexivity|]. exists e. assumption.
  - right. left. split; [reflexivity|].
    exists data, answer, parsed, mdata, res. auto.
  - right. right. split; [reflexivity|].
    exists data, mdata, uploadUrl, res. auto.
Qed.

End RunProperties.

Ltac which_call :=
  repeat match goal with
         | H : _ \/ _ |- _ => destruct H
         | H : False |- _ => contradiction H
         | H : Ask _ = Fetch _ _ |- _ => discriminate H
         | H : WriteFile _ = Fetch _ _ |- _ => discriminate H
         | H : Fetch _ None = Fetch _ (Some _) |- _ => discriminate H
         | H : Fetch _ (Some _) = Fetch _ (Some _) |- _ =>
             inversion H; subst; clear H
         end.

Lemma stored_is_text rt data mdata :
  exists s, body (stored rt data mdata) = Text s.
Proof. eexists. reflexivity. Qed.

Lemma uploaded_is_binary rt world mdata :
  body (uploaded rt world mdata) = Binary (pptx_write world (slides rt mdata)).
Proof. reflexivity. Qed.

Section WhatIsSent.

Variable rt : Runtime.
Variable world : World.

(** X7. Nothing is sent to the metadata store that was not validated: a [fetch]
    with a text body, in any run, is the upsert of the record built from a
    body that passed [requestSchema] and a chatbot answer that parsed and
    passed the strict metadata schema. It is a [PUT] to the [/meeting]
    address of the backend, with the JSON content type, and its text is
    [JSON.stringify] of the record [{ id, email, ...data }]. *)
Theorem only_validated_data_is_stored input url init s :
  In (Fetch url (Some init)) (fst (run (handleSummary rt world input))) ->
  body init = Text s ->
  exists data answer parsed mdata,
    validated rt world input data answer parsed mdata /\
    url = backend rt world ++ "/meeting" /\
    init = stored rt data mdata /\
    method init = "PUT" /\
    headers init = [("Content-Type", "application/json")] /\
    s = JSON_stringify (Number_toString rt)
          (meeting_record (field data "id") (field data "email") mdata).
Proof.
  by_outcome rt world input tr c H; intros Hin Htext;
    unfold calls_to_chatbot, calls_to_store, calls_to_signer, calls_to_target in Hin;
    cbn [In] in Hin; which_call;
    try (rewrite uploaded_is_binary in Htext; discriminate Htext);
    try match goal with
        | Hp : persisted _ _ _ _ _ |- _ =>
            destruct Hp as [answer [parsed [res' [Hval _]]]]
        | Hs : signed_for _ _ _ _ _ _ |- _ =>
            destruct Hs as [[answer [parsed [res' [Hval _]]]] _]
        end;
    exists data, answer, parsed, mdata;
    (split; [assumption|]);
    repeat (split; [reflexivity|]);
    unfold stored, meeting_put in Htext; cbn [body] in Htext;
    injection Htext as <-; reflexivity.
Qed.

(** X8. Nothing is uploaded but the file rendered from validated metadata, and
    only after the store took the record and the presigned-URL service gave
    the address: a [fetch] with a binary body, in any run, carries what
    [pptx.write()] made of the slides and goes to the [url] the service
    answered. *)
Theorem only_the_rendered_file_is_uploaded input url init blob :
  In (Fetch url (Some init)) (fst (run (handleSummary rt world input))) ->
  body init = Binary blob ->
  exists data mdata uploadUrl,
    signed_for rt world input data mdata uploadUrl /\
    blob = pptx_write world (slides rt mdata) /\
    url = interpolate (Number_toString rt) uploadUrl.
Proof.
  by_outcome rt world input tr c H; intros Hin Hbin;
    unfold calls_to_chatbot, calls_to_store, calls_to_signer, calls_to_target in Hin;
    cbn [In] in Hin; which_call;
    try (destruct (stored_is_text rt data mdata) as [s Hs];
         rewrite Hs in Hbin; discriminate Hbin);
    rewrite uploaded_is_binary in Hbin; inversion Hbin; subst;
    exists data, mdata, uploadUrl; auto.
Qed.

(** X9. The store is called at most once in a run, and exactly once in every run
    that reaches the presigned-URL service: no retry, and no second call to
    undo or mark the record when a later stage fails. *)
Theorem store_called_at_most_once input :
  upserts (meeting_url rt world) (fst (run (handleSummary rt world input))) <= 1 /\
  (In to_pptx (map kind_of (fst (run (handleSummary rt world input)))) ->
   upserts (meeting_url rt world) (fst (run (handleSummary rt world input))) = 1).
Proof.
  by_outcome rt world input tr c H;
    unfold calls_to_chatbot, calls_to_store, calls_to_signer, calls_to_target;
    try (split; [apply Nat.le_0_l | intros Hin; cbn in Hin; which_call;
                                    repeat match goal with
                                           | H : _ = to_pptx |- _ => discriminate H
                                           end]; fail).
  all: try (assert (upserts (meeting_url rt world)
                 [Ask (asked rt data);
                  Fetch (meeting_url rt world) (Some (stored rt data mdata))] = 1)
         as Hone
         by (apply upserts_once; [apply stored_is_text | intros ev []]);
       rewrite Hone; split; [apply Nat.le_refl|];
       intros Hin; cbn in Hin; which_call;
       repeat match goal with
              | H : _ = to_pptx |- _ => discriminate H
              end; fail).
  all: try (assert (upserts (meeting_url rt world)
                 [Ask (asked rt data);
                  Fetch (meeting_url rt world) (Some (stored rt data mdata));
                  WriteFile (slides rt mdata);
                  Fetch (signing rt world data) None] = 1)
         as Hone
         by (apply upserts_once; [apply stored_is_text|];
             intros ev [<- | [<- | []]]; reflexivity);
       rewrite Hone; split; [apply Nat.le_refl | reflexivity]; fail).
  all: assert (upserts (meeting_url rt world)
                 [Ask (asked rt data);
                  Fetch (meeting_url rt world) (Some (stored rt data mdata));
                  WriteFile (slides rt mdata);
                  Fetch (signing rt world data) None;
                  Fetch (interpolate (Number_toString rt) uploadUrl)
                    (Some (uploaded rt world mdata))] = 1)
         as Hone
         by (apply upserts_once; [apply stored_is_text|];
             intros ev [<- | [<- | [<- | []]]]; try reflexivity;
             apply upload_is_no_upsert);
       rewrite Hone; split; [apply Nat.le_refl | reflexivity].
Qed.

End WhatIsSent.

(** ** The renderer on data that is not what it expects *)

Section RendererEdges.

Variable rt : Runtime.
Variable world : World.

Lemma forEach_bullets_total slide items :
  forall i pptx,
  exists pptx',
    forEach_from
      (fun point index pptx => inr (bullet rt slide (Some point) index pptx))
      items i pptx = inr pptx'.
Proof.
  induction items as [|x rest IH]; intros i pptx.
  - eexists. reflexivity.
  - cbn [forEach_from]. apply IH.
Qed.

Lemma not_array_forEach {St : Type} (v : jsval)
    (f : json -> nat -> St -> exn + St) (st : St) :
  (forall items, v <> Some (JArr items)) -> forEach v f st = inl TypeError.
Proof.
  intros H. destruct v as [[| | | |items|]|]; try reflexivity.
  contradiction (H items). reflexivity.
Qed.

Lemma presentation_without_lists data :
  (forall items, field data "takeaways" <> Some (JArr items)) \/
  (forall items, field data "actionItems" <> Some (JArr items)) ->
  presentation rt data = inl TypeError.
Proof.
  intros H.
  { unfold presentation.
    destruct data as [[| | | | |props]|]; try reflexivity;
      try (cbn [get_prop]; apply not_array_forEach; discriminate).
    cbn [get_prop field] in *.
    cbn [PptxGenJS.addSlide PptxGenJS.new PptxGenJS.addText PptxGenJS.update
         app length].
    destruct H as [H | H].
    - rewrite not_array_forEach; [reflexivity | exact H].
    - destruct (lookup "takeaways" props) as [[| | | |items|]|]; try reflexivity.
      cbn [forEach].
      match goal with
      | |- context [forEach_from
                      (fun point index pptx =>
                         inr (bullet rt ?s (Some point) index pptx)) items 0 ?p] =>
          destruct (forEach_bullets_total s items 0 p) as [pptx' Hloop];
          rewrite Hloop
      end.
      cbn [PptxGenJS.addSlide PptxGenJS.addText].
      apply not_array_forEach. exact H. }
Qed.

(** X10. [generatePresentation] needs both lists: when [takeaways] or
    [actionItems] is not an array (absent, [null], anything else), it throws a
    [TypeError] and [pptx.write()] is not called. *)
Theorem renderer_needs_both_lists data id tr :
  (forall items, field data "takeaways" <> Some (JArr items)) \/
  (forall items, field data "actionItems" <> Some (JArr items)) ->
  presentation rt data = inl TypeError /\
  generatePresentation rt world data id tr = (tr, Throw TypeError).
Proof.
  intros H. pose proof (presentation_without_lists data H) as Hp.
  split; [exact Hp|]. unfold generatePresentation. rewrite Hp. reflexivity.
Qed.

End RendererEdges.

(** ** Edges of the pipeline *)

Section PipelineEdges.

Variable rt : Runtime.
Variable world : World.

(** X11. No test is made that the presigned-URL service answered with a [url]: when
    its answer is an object without that property, the file is sent to the
    address [undefined]. *)
Theorem missing_url_is_not_noticed input data answer parsed mdata res response
    content :
  validated rt world input data answer parsed mdata ->
  fetch world (meeting_url rt world) (Some (stored rt data mdata)) = inr res ->
  ok res = true ->
  fetch world (signing rt world data) None = inr response ->
  ok response = true ->
  response_json response = inr content ->
  get_prop (Some content) "url" = inr None ->
  fst (run (handleSummary rt world input)) =
    [Ask (asked rt data);
     Fetch (meeting_url rt world) (Some (stored rt data mdata));
     WriteFile (slides rt mdata);
     Fetch (signing rt world data) None;
     Fetch "undefined" (Some (uploaded rt world mdata))].
Proof.
  intros [Hreq [Hask [Hjson Hmeta]]] Hput Hok Hsign Hyes Hcontent Hurl.
  pose proof (presentation_of_valid rt _ _ Hmeta) as Hpres.
  destruct (request_valid _ _ _ Hreq) as [props [r [-> [-> _]]]].
  unfold_handler. rewrite Hreq. evaluate. rewrite Hask. evaluate.
  rewrite Hjson. evaluate. rewrite Hmeta. evaluate. rewrite Hput. evaluate.
  rewrite Hok. evaluate. rewrite Hpres. evaluate. rewrite Hsign. evaluate.
  rewrite Hyes. evaluate. rewrite Hcontent. evaluate. rewrite Hurl. evaluate.
  cbn [interpolate].
  destruct (fetch world "undefined" _) as [e|upres];
    [reflexivity | destruct (ok upres); reflexivity].
Qed.

(** X12. With the partial schema module in the place of the strict one, an answer
    without [takeaways] or without [actionItems] passes the validation and is
    sent to the metadata store; then the renderer throws a [TypeError]: the
    record is stored, nothing is rendered or uploaded, and the handler returns
    no object. *)
Theorem partial_module_stores_then_throws input data answer parsed mdata res :
  safeParse (zod_email rt) Schema.requestSchema input = Success data ->
  chatbot_ask world (asked rt data) = inr answer ->
  JSON_parse rt answer = Some parsed ->
  safeParse (zod_email rt) PartialSchema.insertMeetingMetadataSchema (Some parsed)
    = Success mdata ->
  field mdata "takeaways" = None \/ field mdata "actionItems" = None ->
  fetch world (meeting_url rt world) (Some (stored rt data mdata)) = inr res ->
  ok res = true ->
  run (handleSummaryWith rt world PartialSchema.insertMeetingMetadataSchema input) =
    ([Ask (asked rt data);
      Fetch (meeting_url rt world) (Some (stored rt data mdata))],
     Throw TypeError).
Proof.
  intros Hreq Hask Hjson Hmeta Hnone Hput Hok.
  assert (presentation rt mdata = inl TypeError) as Hpres.
  { apply (presentation_without_lists rt mdata).
    destruct Hnone as [H | H]; [left | right]; rewrite H; discriminate. }
  destruct (request_valid _ _ _ Hreq) as [props [r [-> [-> _]]]].
  unfold_handler. rewrite Hreq. evaluate. rewrite Hask. evaluate.
  rewrite Hjson. evaluate. rewrite Hmeta. evaluate. rewrite Hput. evaluate.
  rewrite Hok. evaluate. rewrite Hpres. reflexivity.
Qed.

End PipelineEdges.

(** ** Objects that declare nothing *)

Section NothingDeclared.

Variable is_email : string -> bool.

Lemma all_missing p props sh :
  forallb (fun ks => required (snd ks)) sh = true ->
  (forall k, In k (map fst sh) -> lookup k props = None) ->
  fst (parse_shape is_email p props sh) =
  map (fun k => mkIssue invalid_type (p ++ [PKey k])%list) (map fst sh).
Proof.
  induction sh as [|[k sk] rest IH]; intros Hreq Hnone.
  - reflexivity.
  - cbn [forallb snd] in Hreq. apply andb_prop in Hreq. destruct Hreq as [Hk Hrest].
    rewrite parse_shape_cons. cbn [fst snd map].
    rewrite (Hnone k (or_introl eq_refl)), (parse_required_undefined _ _ _ Hk).
    cbn [fst app]. f_equal. apply IH; [exact Hrest|].
    intros k' Hin. apply Hnone. right. exact Hin.
Qed.

Lemma all_optional_missing p props sh :
  (forall k, In k (map fst sh) -> lookup k props = None) ->
  parse_shape is_email p props
    (map (fun ks => (fst ks, z_optional (snd ks))) sh) = ([], []).
Proof.
  induction sh as [|[k sk] rest IH]; intros Hnone.
  - reflexivity.
  - cbn [map fst snd]. rewrite parse_shape_cons. cbn [fst snd].
    rewrite (Hnone k (or_introl eq_refl)). cbn [parse fst snd app].
    rewrite IH; [reflexivity|]. intros k' Hin. apply Hnone. right. exact Hin.
Qed.

(** X13. An object with none of the declared metadata keys, the empty object among
    them: the strict schema reports every one of the twelve keys as missing,
    in the order of their declaration, and the partial schema accepts the
    object and returns the empty object. *)
Theorem nothing_declared props :
  (forall k, In k (map fst (shape_of Schema.insertMeetingMetadataSchema)) ->
             lookup k props = None) ->
  safeParse is_email Schema.insertMeetingMetadataSchema (Some (JObj props)) =
    Failure (map (fun k => mkIssue invalid_type [PKey k])
               (map fst (shape_of Schema.insertMeetingMetadataSchema)))
  /\
  safeParse is_email PartialSchema.insertMeetingMetadataSchema (Some (JObj props)) =
    Success (Some (JObj [])).
Proof.
  intros Hnone. split.
  - apply safeParse_failure. split; [|discriminate].
    unfold Schema.insertMeetingMetadataSchema at 1.
    rewrite parse_object_shape. cbn [fst].
    apply (all_missing [] props (shape_of Schema.insertMeetingMetadataSchema));
      [reflexivity | exact Hnone].
  - apply safeParse_success. rewrite partial_is_optional_strict.
    rewrite parse_object_shape, all_optional_missing; [reflexivity | exact Hnone].
Qed.

End NothingDeclared.

(** ** The record [{ id, email, ...data }] *)

Lemma lookup_absent k l : ~ In k (keys l) -> lookup k l = None.
Proof.
  induction l as [|[k' v] rest IH]; intros H; [reflexivity|].
  cbn [lookup]. cbn [keys map fst In] in H.
  destruct (String.eqb_spec k k') as [->|Hne].
  - contradiction H. left. reflexivity.
  - apply IH. intros Hin. apply H. right. exact Hin.
Qed.

Lemma lookup_set_prop k k' v o :
  lookup k (defined_props (set_prop k' (Some v) o)) =
  if String.eqb k k' then Some v else lookup k (defined_props o).
Proof.
  induction o as [|[k0 v0] rest IH].
  - cbn [set_prop defined_props lookup]. reflexivity.
  - cbn [set_prop]. destruct (String.eqb_spec k' k0) as [->|Hne].
    + destruct v0 as [w|]; cbn [defined_props lookup].
      * destruct (String.eqb k k0); reflexivity.
      * destruct (String.eqb_spec k k0) as [->|Hk]; [reflexivity|].
        reflexivity.
    + destruct v0 as [w|]; cbn [defined_props lookup].
      * rewrite IH. destruct (String.eqb_spec k k0) as [->|Hk].
        -- apply not_eq_sym in Hne. apply String.eqb_neq in Hne.
           rewrite Hne. reflexivity.
        -- reflexivity.
      * exact IH.
Qed.

(** X14. In the record sent to the store, a property of the validated data wins
    over the request's: every key of the data holds the data's value, [id] and
    [email] included when the data has them; the request's [id] and [email]
    are in the record only where the data has no such key. *)
Theorem data_overrides_request id email props k :
  NoDup (keys props) ->
  field (Some (meeting_record id email (Some (JObj props)))) k =
  match lookup k props with
  | Some v => Some v
  | None =>
      if String.eqb k "id" then id
      else if String.eqb k "email" then email
      else None
  end.
Proof.
  intros Hnd. unfold meeting_record, spread. cbn [field get_prop].
  assert (forall o,
             lookup k (defined_props
                         (fold_left
                            (fun acc kv => set_prop (fst kv) (Some (snd kv)) acc)
                            props o)) =
             match lookup k props with
             | Some v => Some v
             | None => lookup k (defined_props o)
             end) as Hfold.
  { clear id email. induction props as [|[k1 v1] rest IH]; intros o.
    - reflexivity.
    - cbn [fold_left fst snd lookup]. cbn [keys map fst] in Hnd.
      inversion Hnd as [|? ? Hfresh Hnd']; subst.
      rewrite (IH Hnd'), lookup_set_prop.
      destruct (String.eqb_spec k k1) as [->|Hne].
      + rewrite (lookup_absent _ _ Hfresh). reflexivity.
      + reflexivity. }
  rewrite Hfold. destruct (lookup k props); [reflexivity|].
  destruct id as [i|], email as [e|]; cbn [defined_props lookup];
    destruct (String.eqb k "id") eqn:Hid;
    destruct (String.eqb k "email") eqn:Hem; try reflexivity.
  all: apply String.eqb_eq in Hid; apply String.eqb_eq in Hem; congruence.
Qed.

(** ** The presigned-URL helper *)

(** X15. [getPresignedUploadUrl] makes one call whatever happens, a [fetch] with
    no [init] of the signed-url address for the name it is given: returning
    or throwing, its trace is that one call. It returns exactly when the
    service answered with success and a JSON body that is not [null], and
    what it returns is the [url] property of that body, be it [undefined];
    when the service answered without success it throws its own [Error]. *)
Theorem presigned_url_returns_on_success_only rt world name tr :
  fst (getPresignedUploadUrl rt world name tr) =
    (tr ++ [Fetch (backend rt world ++ "/signed-url/" ++ name) None])%list
  /\
  (forall u,
     snd (getPresignedUploadUrl rt world name tr) = Normal u <->
     exists response content,
       fetch world (signed_url rt world name) None = inr response /\
       ok response = true /\
       response_json response = inr content /\
       get_prop (Some content) "url" = inr u)
  /\
  (forall response,
     fetch world (signed_url rt world name) None = inr response ->
     ok response = false ->
     snd (getPresignedUploadUrl rt world name tr) =
       Throw (Error "Failed to get pre-signed upload URL")).
Proof.
  unfold getPresignedUploadUrl. rewrite bind_call.
  fold (signed_url rt world name).
  destruct (fetch world (signed_url rt world name) None) as [e|response] eqn:Hf.
  { split; [reflexivity|]. split.
    - intros u. split; [discriminate|].
      intros [r [content [Hr _]]]. discriminate Hr.
    - intros r Hr. discriminate Hr. }
  destruct (ok response) eqn:Hok; cbn [negb].
  2:{ split; [reflexivity|]. split.
      - intros u. split; [discriminate|].
        intros [r [content [Hr [Hyes _]]]].
        inversion Hr; subst r. rewrite Hok in Hyes. discriminate Hyes.
      - intros r Hr _. reflexivity. }
  unfold bind, lift.
  destruct (response_json response) as [e|content] eqn:Hc; cbn [ret throw].
  { split; [reflexivity|]. split.
    - intros u. split; [discriminate|].
      intros [r [c [Hr [_ [Hj _]]]]].
      inversion Hr; subst r. rewrite Hc in Hj. discriminate Hj.
    - intros r Hr Hno. inversion Hr; subst r. rewrite Hok in Hno.
      discriminate Hno. }
  destruct (get_prop (Some content) "url") as [e|v] eqn:Hurl; cbn [fst snd].
  - split; [reflexivity|]. split.
    + intros u. split; [discriminate|].
      intros [r [c [Hr [_ [Hj Hu]]]]].
      inversion Hr; subst r. rewrite Hc in Hj. inversion Hj; subst c.
      rewrite Hurl in Hu. discriminate Hu.
    + intros r Hr Hno. inversion Hr; subst r. rewrite Hok in Hno.
      discriminate Hno.
  - split; [reflexivity|]. split.
    + intros u. split.
      * intros H. inversion H; subst u. exists response, content.
        repeat split; try assumption; reflexivity.
      * intros [r [c [Hr [_ [Hj Hu]]]]].
        inversion Hr; subst r. rewrite Hc in Hj. inversion Hj; subst c.
        rewrite Hurl in Hu. inversion Hu. reflexivity.
    + intros r Hr Hno. inversion Hr; subst r. rewrite Hok in Hno.
      discriminate Hno.
Qed.

(** ** The lines of the prompt *)

Lemma occurrences_append c a b :
  occurrences c (a ++ b) = occurrences c a + occurrences c b.
Proof.
  induction a as [|d a IH]; cbn [append occurrences]; [reflexivity|].
  rewrite IH. apply Nat.add_assoc.
Qed.

Lemma line_breaks_append a b :
  line_breaks (a ++ b) = line_breaks a + line_breaks b.
Proof. apply occurrences_append. Qed.

(** [QuoteJSONString] escapes the line break, like every control character. *)
Lemma quote_char_one_line c : line_breaks (quote_char c) = 0.
Proof. destruct c as [[] [] [] [] [] [] [] []]; vm_compute; reflexivity. Qed.

Lemma quote_one_line s : line_breaks (QuoteJSONString s) = 0.
Proof.
  unfold QuoteJSONString. rewrite !line_breaks_append.
  assert (line_breaks (quote_body s) = 0) as H.
  { induction s as [|c s IH]; [reflexivity|].
    cbn [quote_body]. rewrite line_breaks_append, quote_char_one_line. exact IH. }
  rewrite H. reflexivity.
Qed.

Lemma line_breaks_join sep parts a b :
  Forall (fun p => line_breaks p = a) parts ->
  line_breaks sep = b ->
  line_breaks (join sep parts) =
  a * List.length parts + b * (List.length parts - 1).
Proof.
  intros Hparts Hsep. induction Hparts as [|p rest Hp Hrest IH].
  - cbn. lia.
  - destruct rest as [|q rest].
    + cbn [join List.length]. lia.
    + change (join sep (p :: q :: rest)) with (p ++ sep ++ join sep (q :: rest)).
      rewrite !line_breaks_append, IH, Hp, Hsep. cbn [List.length Nat.sub].
      rewrite Nat.sub_0_r. nia.
Qed.

Lemma block_lines nts indent b :
  line_breaks indent = 0 ->
  line_breaks (serialize nts "  " indent (block_json b)) = 4.
Proof.
  intros H. unfold block_json.
  cbn [serialize String.eqb Ascii.eqb Bool.eqb join].
  rewrite !line_breaks_append, !quote_one_line, !H. reflexivity.
Qed.

(** X16. Whatever a transcript says, it takes the same lines of the prompt: five
    per block and one more, none when there is no block. A line break in a
    name, a timestamp or a text is escaped and adds no line. *)
Theorem transcript_takes_five_lines_a_block (rt : Runtime)
    (t : list TranscriptBlock) :
  line_breaks (generatePrompt rt (Some (transcript_json t))) =
  104 + match t with
        | [] => 0
        | _ => 5 * List.length t + 1
        end.
Proof.
  unfold generatePrompt, JSON_stringify_2.
  rewrite !line_breaks_append.
  assert (line_breaks prompt_head = 6) as Hhead by (vm_compute; reflexivity).
  assert (line_breaks prompt_tail = 98) as Htail by (vm_compute; reflexivity).
  assert (line_breaks (serialize (Number_toString rt) "  " "" (transcript_json t)) =
          match t with [] => 0 | _ => 5 * List.length t + 1 end) as Ht.
  { unfold transcript_json. rewrite serialize_array, map_map. unfold bracket.
    destruct t as [|b t]; [reflexivity|].
    cbn [map String.eqb Ascii.eqb Bool.eqb].
    change ("" ++ "  ") with "  ".
    set (parts := serialize (Number_toString rt) "  " "  " (block_json b)
                    :: map (fun x => serialize (Number_toString rt) "  " "  "
                                       (block_json x)) t).
    rewrite !line_breaks_append.
    rewrite (line_breaks_join _ parts 4 1).
    - subst parts. cbn [List.length]. rewrite length_map.
      change (line_breaks "[") with 0. change (line_breaks newline) with 1.
      change (line_breaks "  ") with 0. change (line_breaks "") with 0.
      change (line_breaks "]") with 0. lia.
    - subst parts. constructor; [apply block_lines; reflexivity|].
      apply Forall_forall. intros p Hin. apply in_map_iff in Hin.
      destruct Hin as [x [<- _]]. apply block_lines. reflexivity.
    - reflexivity. }
  rewrite Ht, Hhead, Htail. lia.
Qed.

(** ** Where the bulleted lines stand *)

Lemma nth_error_bullets_from entries :
  forall i k,
    nth_error (bullets_from i entries) k =
    option_map (bullet_box (i + k)) (nth_error entries k).
Proof.
  induction entries as [|e rest IH]; intros i k.
  - destruct k; reflexivity.
  - destruct k as [|k]; cbn [bullets_from nth_error option_map].
    + rewrite Nat.add_0_r. reflexivity.
    + rewrite IH. replace (S i + k) with (i + S k) by lia. reflexivity.
Qed.

(** X17. On the third and on the fourth slide, the entry of index [k] is the box
    after the heading and [k] others, at the height [1 + k * 0.5] whatever its
    text and however many entries there are; a later entry stands strictly
    lower, so no two lines of a slide share a position. *)
Theorem bullets_are_stacked (rt : Runtime) (v data : jsval) :
  safeParse (zod_email rt) Schema.insertMeetingMetadataSchema v = Success data ->
  exists view,
    shows data view /\
    (forall k t,
       nth_error (view_takeaways view) k = Some t ->
       box_at (slides rt data) 2 (S k) = Some (bullet_box k t)) /\
    (forall k d,
       nth_error (view_actionItems view) k = Some d ->
       box_at (slides rt data) 3 (S k) = Some (bullet_box k d)) /\
    (forall j k a b,
       j < k ->
       (PptxGenJS.y (PptxGenJS.options (bullet_box j a))
        < PptxGenJS.y (PptxGenJS.options (bullet_box k b)))%Q).
Proof.
  intros H.
  destruct (metadata_valid _ _ _ H) as [props [out [view [_ [_ [_ [_ Hs]]]]]]].
  exists view. split; [exact Hs|].
  unfold slides. rewrite (presentation_shows rt _ _ Hs). unfold deck, box_at.
  split; [|split].
  - intros k t Hk. cbn [nth_error]. rewrite nth_error_bullets_from, Hk. reflexivity.
  - intros k d Hk. cbn [nth_error]. rewrite nth_error_bullets_from, Hk. reflexivity.
  - intros j k a b Hlt. cbn [bullet_box PptxGenJS.y PptxGenJS.options].
    apply Qplus_lt_r. apply Qmult_lt_compat_r; [reflexivity|].
    rewrite <- Zlt_Qlt. lia.
Qed.

(** ** What the handler refuses *)

Section Refusals.

Variable rt : Runtime.
Variable world : World.

(** X18. The handler answers [Invalid request] exactly for the bodies that are
    [undefined] or violate the request schema: a wrong type, an empty string
    where one character is asked, an email the test refuses, a missing key, at
    any depth. *)
Theorem invalid_request_iff_violates input :
  snd (run (handleSummary rt world input)) =
    Normal {| success := false; error := EMessage "Invalid request" |}
  <->
  (input = None \/
   exists v, input = Some v /\ violates (zod_email rt) Schema.requestSchema v).
Proof.
  split.
  - intros H.
    assert (exists e, safeParse (zod_email rt) Schema.requestSchema input = Failure e)
      as [e He].
    { revert H. by_outcome rt world input tr c Hout; intros Hr; inversion Hr.
      exists e. assumption. }
    destruct input as [v|]; [right | left; reflexivity].
    exists v. split; [reflexivity|].
    apply safeParse_fails_iff_violates. exists e. exact He.
  - intros H.
    assert (exists e, safeParse (zod_email rt) Schema.requestSchema input = Failure e)
      as [e He].
    { destruct H as [-> | [v [-> Hv]]].
      - eexists. reflexivity.
      - apply safeParse_fails_iff_violates. exact Hv. }
    unfold_handler. rewrite He. reflexivity.
Qed.

(** X19. For a body that validates and an answer that parses, the handler returns
    the [ZodError] object exactly when the answer violates the strict metadata
    schema; the chatbot was then the only collaborator called. *)
Theorem refused_answer_iff_violates input data answer parsed :
  safeParse (zod_email rt) Schema.requestSchema input = Success data ->
  chatbot_ask world (asked rt data) = inr answer ->
  JSON_parse rt answer = Some parsed ->
  ((exists e,
      run (handleSummary rt world input) =
        ([Ask (asked rt data)], Normal {| success := false; error := EZod e |}))
   <-> violates (zod_email rt) Schema.insertMeetingMetadataSchema parsed).
Proof.
  intros Hreq Hask Hjson. split.
  - intros [e Hrun].
    destruct (safeParse (zod_email rt) Schema.insertMeetingMetadataSchema
                (Some parsed)) as [mdata|e'] eqn:Hmeta.
    + exfalso.
      assert (exists ev rest,
                 fst (run (handleSummary rt world input)) =
                 Ask (asked rt data) :: ev :: rest) as [ev [rest Htr]].
      { clear Hrun.
        destruct (request_valid _ _ _ Hreq) as [props [r [-> [-> _]]]].
        unfold_handler. unfold run. rewrite Hreq.
        cbn [get_prop request_json lookup String.eqb Ascii.eqb Bool.eqb].
        rewrite !bind_lift_inr, bind_call.
        unfold asked in *. cbn [field get_prop request_json lookup
                                String.eqb Ascii.eqb Bool.eqb] in *.
        rewrite Hask. unfold parse_json. rewrite Hjson, bind_lift_inr, Hmeta, bind_call.
        cbn [app].
        destruct (fetch world _ _) as [e0|res].
        - eexists. exists []. reflexivity.
        - destruct (ok res); cbn [negb].
          + match goal with
            | |- exists ev rest, fst (?m ?tr) = _ =>
                assert (extends m) as Hext;
                [ auto 20 with io
                | destruct (Hext tr) as [more Hmore]; rewrite Hmore ]
            end.
            eexists. exists more. reflexivity.
          + eexists. exists []. reflexivity. }
      rewrite Hrun in Htr. discriminate Htr.
    + apply safeParse_fails_iff_violates. exists e'. exact Hmeta.
  - intros Hv. apply safeParse_fails_iff_violates in Hv. destruct Hv as [e He].
    exists e.
    destruct (request_valid _ _ _ Hreq) as [props [r [-> [-> _]]]].
    unfold_handler. rewrite Hreq. evaluate. rewrite Hask. evaluate.
    rewrite Hjson. evaluate. rewrite He. reflexivity.
Qed.

End Refusals.

(** ** The further facts, on the scenarios *)

(** The answer with keys of its own validates to the declared fields, and
    those validate to themselves. *)
Lemma validated_data_is_valid_witness :
  safeParse Example.simple_email Schema.insertMeetingMetadataSchema
    (Some Example.metadata) = Success (Some Example.metadata).
Proof.
  apply (validated_data_is_valid Example.simple_email
           Schema.insertMeetingMetadataSchema (Some Example.metadata_with_id)).
  - right. left. reflexivity.
  - vm_compute. reflexivity.
Defined.

(** The store refuses: the object returned has an error and no success. *)
Lemma error_null_iff_success_witness :
  false = true <-> EMessage "Failed to update meeting metadata" = ENull.
Proof.
  apply (error_null_iff_success Example.rt
           (Example.world Example.answer false true true) (Some Example.m1)
           {| success := false;
              error := EMessage "Failed to update meeting metadata" |}).
  vm_compute. reflexivity.
Defined.

(** The end-to-end scenario reported success: it made the five calls. *)
Lemma success_means_all_stages_witness :
  exists data mdata uploadUrl,
    signed_for Example.rt (Example.world Example.answer true true true)
      (Some Example.m1) data mdata uploadUrl /\
    fst (run (handleSummary Example.rt
                (Example.world Example.answer true true true) (Some Example.m1))) =
      calls_to_target Example.rt (Example.world Example.answer true true true)
        data mdata uploadUrl.
Proof.
  destruct (success_means_all_stages Example.rt
              (Example.world Example.answer true true true) (Some Example.m1)
              {| success := true; error := ENull |})
    as [data [mdata [uploadUrl [res [Hs [_ [_ Htr]]]]]]].
  - vm_compute. reflexivity.
  - reflexivity.
  - exists data, mdata, uploadUrl. split; assumption.
Defined.

(** The store refuses: the message names it, after two calls. *)
Lemma message_names_the_stage_witness :
  exists data mdata,
    fst (run (handleSummary Example.rt
                (Example.world Example.answer false true true) (Some Example.m1))) =
      calls_to_store Example.rt (Example.world Example.answer false true true)
        data mdata.
Proof.
  destruct (message_names_the_stage Example.rt
              (Example.world Example.answer false true true) (Some Example.m1)
              "Failed to update meeting metadata")
    as [[Hm _] | [[_ [data [answer [parsed [mdata [res [_ [_ [_ Htr]]]]]]]]]
                 | [Hm _]]].
  - vm_compute. reflexivity.
  - discriminate Hm.
  - exists data, mdata. exact Htr.
  - discriminate Hm.
Defined.

(** The upsert of the end-to-end scenario: the [PUT] of the stored text to the
    [/meeting] address is the one built from validated data. *)
Lemma only_validated_data_is_stored_witness :
  exists data answer parsed mdata,
    validated Example.rt (Example.world Example.answer true true true)
      (Some Example.m1) data answer parsed mdata /\
    stored Example.rt data mdata =
      {| method := "PUT";
         headers := [("Content-Type", "application/json")];
         body := Text Example.m1_stored_text |}.
Proof.
  destruct (only_validated_data_is_stored Example.rt
              (Example.world Example.answer true true true) (Some Example.m1)
              "https://backend.example/meeting"
              {| method := "PUT";
                 headers := [("Content-Type", "application/json")];
                 body := Text Example.m1_stored_text |}
              Example.m1_stored_text)
    as [data [answer [parsed [mdata [Hval [_ [Hinit _]]]]]]].
  - vm_compute. right. left. reflexivity.
  - reflexivity.
  - exists data, answer, parsed, mdata. split; [exact Hval|].
    symmetry. exact Hinit.
Defined.

(** The upload of the end-to-end scenario carries the rendered file, to the
    address the service gave. *)
Lemma only_the_rendered_file_is_uploaded_witness :
  exists data mdata uploadUrl,
    signed_for Example.rt (Example.world Example.answer true true true)
      (Some Example.m1) data mdata uploadUrl /\
    "https://storage.example/put" =
      interpolate Example.integer_toString uploadUrl.
Proof.
  destruct (only_the_rendered_file_is_uploaded Example.rt
              (Example.world Example.answer true true true) (Some Example.m1)
              "https://storage.example/put"
              (uploaded Example.rt (Example.world Example.answer true true true)
                 (Some Example.metadata))
              (pptx_write (Example.world Example.answer true true true)
                 (slides Example.rt (Some Example.metadata))))
    as [data [mdata [uploadUrl [Hs [_ Hurl]]]]].
  - vm_compute. do 4 right. left. reflexivity.
  - reflexivity.
  - exists data, mdata, uploadUrl. split; assumption.
Defined.

(** The empty object has no lists: the renderer throws. *)
Lemma renderer_needs_both_lists_witness :
  presentation Example.rt (Some (JObj [])) = inl TypeError /\
  generatePresentation Example.rt (Example.world Example.answer true true true)
    (Some (JObj [])) None [] = ([], Throw TypeError).
Proof.
  apply renderer_needs_both_lists. left. intros items. discriminate.
Defined.

(** The presigned-URL service answers without a [url]: the file goes to the
    address [undefined]. *)
Lemma missing_url_is_not_noticed_witness :
  fst (run (handleSummary Example.rt More.world_without_url (Some Example.m1))) =
    [Ask (asked Example.rt Example.m1_data);
     Fetch (meeting_url Example.rt More.world_without_url)
       (Some (stored Example.rt Example.m1_data (Some Example.metadata)));
     WriteFile (slides Example.rt (Some Example.metadata));
     Fetch (signing Example.rt More.world_without_url Example.m1_data) None;
     Fetch "undefined"
       (Some (uploaded Example.rt More.world_without_url (Some Example.metadata)))].
Proof.
  apply (missing_url_is_not_noticed Example.rt More.world_without_url
           (Some Example.m1) Example.m1_data Example.answer Example.metadata
           (Some Example.metadata)
           {| ok := true; response_json := inr JNull |}
           {| ok := true; response_json := inr More.unsigned_content |}
           More.unsigned_content).
  - repeat split; vm_compute; reflexivity.
  - reflexivity.
  - reflexivity.
  - reflexivity.
  - reflexivity.
  - reflexivity.
  - reflexivity.
Defined.

(** Under the partial module, the answer without [takeaways] is stored and
    then the handler throws. *)
Lemma partial_module_stores_then_throws_witness :
  run (handleSummaryWith More.rt
         (Example.world More.answer_without_takeaways true true true)
         PartialSchema.insertMeetingMetadataSchema (Some Example.m1)) =
    ([Ask (asked More.rt Example.m1_data);
      Fetch (meeting_url More.rt
               (Example.world More.answer_without_takeaways true true true))
        (Some (stored More.rt Example.m1_data
                 (Some More.metadata_without_takeaways)))],
     Throw TypeError).
Proof.
  apply (partial_module_stores_then_throws More.rt
           (Example.world More.answer_without_takeaways true true true)
           (Some Example.m1) Example.m1_data More.answer_without_takeaways
           More.metadata_without_takeaways
           (Some More.metadata_without_takeaways)
           {| ok := true; response_json := inr JNull |}).
  - apply (m1_validates (zod_email More.rt)). reflexivity.
  - reflexivity.
  - vm_compute. reflexivity.
  - vm_compute. reflexivity.
  - left. reflexivity.
  - reflexivity.
  - reflexivity.
Defined.

(** The empty object: twelve issues from the strict schema, the empty object
    from the partial one. *)
Lemma nothing_declared_witness :
  safeParse Example.simple_email Schema.insertMeetingMetadataSchema (Some (JObj [])) =
    Failure (map (fun k => mkIssue invalid_type [PKey k])
               (map fst (shape_of Schema.insertMeetingMetadataSchema)))
  /\
  safeParse Example.simple_email PartialSchema.insertMeetingMetadataSchema
    (Some (JObj [])) = Success (Some (JObj [])).
Proof.
  apply nothing_declared. intros k _. reflexivity.
Defined.

(** Data with an [id] of its own would replace the request's. *)
Lemma data_overrides_request_witness :
  field (Some (meeting_record (Some (JStr "m1")) (Some (JStr "a@b.com"))
                 (Some (JObj More.data_with_id)))) "id" =
    Some (JStr "intruder").
Proof.
  apply (data_overrides_request (Some (JStr "m1")) (Some (JStr "a@b.com"))
           More.data_with_id "id").
  apply NoDup_by_nodup. vm_compute. reflexivity.
Defined.

(** The presigned-URL service refuses: one call, then its own [Error]. *)
Lemma presigned_url_returns_on_success_only_witness :
  getPresignedUploadUrl Example.rt
    (Example.world Example.answer true false true) "presentation-m1.pptx" [] =
    ([Fetch "https://backend.example/signed-url/presentation-m1.pptx" None],
     Throw (Error "Failed to get pre-signed upload URL")).
Proof.
  destruct (presigned_url_returns_on_success_only Example.rt
              (Example.world Example.answer true false true)
              "presentation-m1.pptx" [])
    as [Htr [_ Hrefused]].
  rewrite (surjective_pairing (getPresignedUploadUrl _ _ _ _)).
  rewrite Htr.
  rewrite (Hrefused {| ok := false; response_json := inr Example.signed_content |});
    reflexivity.
Defined.

(** The second takeaway of the fully populated answer stands third on the
    third slide. *)
Lemma bullets_are_stacked_witness :
  exists view,
    shows (Some Example.metadata) view /\
    (forall k t,
       nth_error (view_takeaways view) k = Some t ->
       box_at (slides Example.rt (Some Example.metadata)) 2 (S k) =
         Some (bullet_box k t)).
Proof.
  destruct (bullets_are_stacked Example.rt (Some Example.metadata)
              (Some Example.metadata))
    as [view [Hs [Ht _]]].
  - vm_compute. reflexivity.
  - exists view. split; assumption.
Defined.

(** The strict module accepts the answer with keys of its own; so does the
    partial module, with the same data. *)
Lemma partial_accepts_strict_witness :
  safeParse Example.simple_email PartialSchema.insertMeetingMetadataSchema
    (Some Example.metadata_with_id) = Success (Some Example.metadata).
Proof.
  apply partial_accepts_strict. vm_compute. reflexivity.
Defined.

(** The answer without [meetingEfficiencyScore] violates the strict schema,
    and is the one the handler refuses. *)
Lemma refused_answer_iff_violates_witness :
  (exists e,
     run (handleSummary Example.rt
            (Example.world Example.answer_without_score true true true)
            (Some Example.m1)) =
       ([Ask (asked Example.rt Example.m1_data)],
        Normal {| success := false; error := EZod e |}))
  <-> violates (zod_email Example.rt) Schema.insertMeetingMetadataSchema
        Example.metadata_without_score.
Proof.
  apply (refused_answer_iff_violates Example.rt
           (Example.world Example.answer_without_score true true true)
           (Some Example.m1) Example.m1_data Example.answer_without_score
           Example.metadata_without_score).
  - apply m1_validates. reflexivity.
  - reflexivity.
  - vm_compute. reflexivity.
Defined.
